(** * react-proptypes-generate: the inference and merge engine
      ([findPropTypes] and the functions around it) and the command line
      front end (bin/cli.js), embedded in Rocq.

    The JavaScript sources are embedded shallowly: syntax-tree nodes are an
    inductive type, a record of the PropTypes bean is a Rocq record, reads of a
    field that JavaScript leaves [undefined] are [option]s, a thrown exception
    or a rejected promise is the [Throw] case of [result], and a recursion that
    the source does not bound carries fuel. *)

From Stdlib Require Import String Ascii List Bool Arith NArith Lia.
From Stdlib Require Import Sorting.Sorted Sorting.Permutation.
Import ListNotations.
Set Warnings "-register-all".
Open Scope string_scope.
Open Scope list_scope.

(** ** JavaScript values used by the sources *)

(** What a function body can do besides returning: throw (or reject the promise
    it returns). *)
Inductive error :=
| TypeError                      (* a property read on undefined or null *)
| ENOENT                         (* fs.statSync on a path that does not exist *)
| Error (message : string).      (* new Error(message) *)

Inductive result (A : Type) :=
| Ok (a : A)
| Throw (e : error).
Arguments Ok {A} a.
Arguments Throw {A} e.

Definition bind {A B : Type} (r : result A) (k : A -> result B) : result B :=
  match r with
  | Ok a => k a
  | Throw e => Throw e
  end.

Notation "x <- r ;; k" := (bind r (fun x => k))
  (at level 61, r at next level, right associativity).

(** [a === b] on values that are a string or undefined. *)
Definition str_eq (a b : option string) : bool :=
  match a, b with
  | Some x, Some y => String.eqb x y
  | None, None => true
  | _, _ => false
  end.

(** [!!v] on a value that is a string or undefined: the empty string and
    undefined are falsy. *)
Definition truthy (v : option string) : bool :=
  match v with
  | Some s => negb (String.eqb s "")
  | None => false
  end.

(** [ids.indexOf(x) !== -1]. *)
Definition includes (ids : list string) (x : string) : bool :=
  existsb (String.eqb x) ids.

(** ** Syntax trees (the ESTree nodes the sources inspect) *)

Inductive literal :=
| LNumber (raw : string)
| LString (value : string)
| LBoolean (value : bool)
| LNull
| LRegExp (raw : string).

Inductive node :=
| Identifier (name : string)
| Literal (value : literal)
| ThisExpression
| MemberExpression (object property : node)
| CallExpression (callee : node) (arguments : list node)
| ObjectExpression (properties : list node)
| ArrayExpression (elements : list (option node))
| Property (key value : node)
| SpreadElement (argument : node)
| ObjectPattern (properties : list node)
| AssignmentPattern (left right : node)
| RestElement (argument : node)
| AssignmentExpression (left right : node)
| VariableDeclarator (id : node) (init : option node)
| ArrowFunctionExpression (params : list node) (body : node)
| FunctionExpression (id : option node) (params : list node) (body : node)
| FunctionDeclaration (id : option node) (params : list node) (body : node)
| ClassDeclaration (id : option node) (superClass : option node) (body : node)
| ClassProperty (key : node) (value : option node) (static : bool)
| MethodDefinition (key value : node)
| BlockStatement (body : list node)
| Other (type : string) (children : list node).

(** [node.type]. *)
Definition node_type (n : node) : string :=
  match n with
  | Identifier _ => "Identifier"
  | Literal _ => "Literal"
  | ThisExpression => "ThisExpression"
  | MemberExpression _ _ => "MemberExpression"
  | CallExpression _ _ => "CallExpression"
  | ObjectExpression _ => "ObjectExpression"
  | ArrayExpression _ => "ArrayExpression"
  | Property _ _ => "Property"
  | SpreadElement _ => "SpreadElement"
  | ObjectPattern _ => "ObjectPattern"
  | AssignmentPattern _ _ => "AssignmentPattern"
  | RestElement _ => "RestElement"
  | AssignmentExpression _ _ => "AssignmentExpression"
  | VariableDeclarator _ _ => "VariableDeclarator"
  | ArrowFunctionExpression _ _ => "ArrowFunctionExpression"
  | FunctionExpression _ _ _ => "FunctionExpression"
  | FunctionDeclaration _ _ _ => "FunctionDeclaration"
  | ClassDeclaration _ _ _ => "ClassDeclaration"
  | ClassProperty _ _ _ => "ClassProperty"
  | MethodDefinition _ _ => "MethodDefinition"
  | BlockStatement _ => "BlockStatement"
  | Other type _ => type
  end.

(** [node.name]: only an identifier has one, any other node gives undefined. *)
Definition node_name (n : node) : option string :=
  match n with
  | Identifier name => Some name
  | _ => None
  end.

Definition opt_list {A : Type} (o : option A) : list A :=
  match o with
  | Some a => [a]
  | None => []
  end.

(** The children of a node, in the order [recast.visit] walks them (the order
    of the fields of the node's type). *)
Definition children (n : node) : list node :=
  match n with
  | Identifier _ | Literal _ | ThisExpression => []
  | MemberExpression object property => [object; property]
  | CallExpression callee arguments => callee :: arguments
  | ObjectExpression properties => properties
  | ArrayExpression elements => flat_map opt_list elements
  | Property key value => [key; value]
  | SpreadElement argument => [argument]
  | ObjectPattern properties => properties
  | AssignmentPattern lhs rhs => [lhs; rhs]
  | RestElement argument => [argument]
  | AssignmentExpression lhs rhs => [lhs; rhs]
  | VariableDeclarator id init => id :: opt_list init
  | ArrowFunctionExpression params body => params ++ [body]
  | FunctionExpression id params body => opt_list id ++ params ++ [body]
  | FunctionDeclaration id params body => opt_list id ++ params ++ [body]
  | ClassDeclaration id superClass body => opt_list id ++ body :: opt_list superClass
  | ClassProperty key value _ => key :: opt_list value
  | MethodDefinition key value => [key; value]
  | BlockStatement body => body
  | Other _ children => children
  end.

(** The nodes [recast.visit] reaches from [n], each with the nodes that enclose
    it, nearest first (the chain [path.parent], [path.parent.parent], ...), in
    the order it reaches them: a node before its children, the children in
    order. Every visitor method of the sources ends with
    [this.traverse(path)], so every node is reached. *)
Fixpoint preorder (ancestors : list node) (n : node) {struct n}
  : list (list node * node) :=
  let go := preorder (n :: ancestors) in
  let opt := fun o : option node =>
    match o with
    | Some c => go c
    | None => []
    end in
  (ancestors, n) ::
  match n with
  | Identifier _ | Literal _ | ThisExpression => []
  | MemberExpression object property => go object ++ go property
  | CallExpression callee arguments => go callee ++ flat_map go arguments
  | ObjectExpression properties => flat_map go properties
  | ArrayExpression elements => flat_map opt elements
  | Property key value => go key ++ go value
  | SpreadElement argument => go argument
  | ObjectPattern properties => flat_map go properties
  | AssignmentPattern lhs rhs => go lhs ++ go rhs
  | RestElement argument => go argument
  | AssignmentExpression lhs rhs => go lhs ++ go rhs
  | VariableDeclarator id init => go id ++ opt init
  | ArrowFunctionExpression params body => flat_map go params ++ go body
  | FunctionExpression id params body => opt id ++ flat_map go params ++ go body
  | FunctionDeclaration id params body => opt id ++ flat_map go params ++ go body
  | ClassDeclaration id superClass body => opt id ++ go body ++ opt superClass
  | ClassProperty key value _ => go key ++ opt value
  | MethodDefinition key value => go key ++ go value
  | BlockStatement body => flat_map go body
  | Other _ children => flat_map go children
  end.

(** A path of the walk: the node and the nodes that enclose it. *)
Definition path : Type := list node * node.

(** [path.parentPath.node]: the node that encloses the path's node. *)
Definition parentNode (p : path) : option node := hd_error (fst p).

(** [recast.visit(ast, visitor)] for a visitor that keeps its state in variables
    of the enclosing function: the state is threaded through the nodes in
    visiting order, and an exception ends the walk. *)
Definition visit {S : Type} (ast : node)
    (visitor : path -> S -> result S) (s : S) : result S :=
  fold_left (fun acc p => s' <- acc ;; visitor p s') (preorder [] ast) (Ok s).

(** ** The PropTypes bean (beans/PropTypes) *)

(** Modelled from the spec: the bean's file is not part of the sources. The
    fields are those of the spec's PropertyRecord under the names the sources
    read and write: [name], [id] (bindingId), [type] (kind), [isRequired]
    (required), [childTypes] (children), [ast] (literalSet) and
    [defaultValue]. A list of children is a JavaScript array and may hold
    null. *)
Inductive PropTypes := mkPropTypes {
  name : option string;
  type : option string;
  isRequired : bool;
  childTypes : list (option PropTypes);
  ast : option node;
  defaultValue : option string;
  id : option string
}.

(** Modelled from the spec: [new PropTypes(name)] is a record of kind any, not
    required, without children, literal set, default value or binding id
    ("A record with kind = any carries no children"). *)
Definition new_PropTypes (name : option string) : PropTypes :=
  {| name := name; type := Some "any"; isRequired := false; childTypes := [];
     ast := None; defaultValue := None; id := None |}.

Definition set_type (t : option string) (p : PropTypes) : PropTypes :=
  {| name := name p; type := t; isRequired := isRequired p;
     childTypes := childTypes p; ast := ast p;
     defaultValue := defaultValue p; id := id p |}.

Definition set_isRequired (b : bool) (p : PropTypes) : PropTypes :=
  {| name := name p; type := type p; isRequired := b;
     childTypes := childTypes p; ast := ast p;
     defaultValue := defaultValue p; id := id p |}.

Definition set_childTypes (c : list (option PropTypes)) (p : PropTypes) : PropTypes :=
  {| name := name p; type := type p; isRequired := isRequired p;
     childTypes := c; ast := ast p;
     defaultValue := defaultValue p; id := id p |}.

Definition set_ast (a : option node) (p : PropTypes) : PropTypes :=
  {| name := name p; type := type p; isRequired := isRequired p;
     childTypes := childTypes p; ast := a;
     defaultValue := defaultValue p; id := id p |}.

Definition set_defaultValue (d : option string) (p : PropTypes) : PropTypes :=
  {| name := name p; type := type p; isRequired := isRequired p;
     childTypes := childTypes p; ast := ast p;
     defaultValue := d; id := id p |}.

Definition set_id (i : option string) (p : PropTypes) : PropTypes :=
  {| name := name p; type := type p; isRequired := isRequired p;
     childTypes := childTypes p; ast := ast p;
     defaultValue := defaultValue p; id := i |}.

(** [array.filter(item => !!item)]. *)
Fixpoint filter_truthy {A : Type} (l : list (option A)) : list A :=
  match l with
  | [] => []
  | Some a :: r => a :: filter_truthy r
  | None :: r => filter_truthy r
  end.

Section MapM.
Context {A B : Type} (f : A -> result B).

(** [array.map(f)] for an [f] that may throw. *)
Fixpoint mapM (l : list A) : result (list B) :=
  match l with
  | [] => Ok []
  | a :: r => b <- f a ;; bs <- mapM r ;; Ok (b :: bs)
  end.
End MapM.

(** ** The component locator and the interpreter of an existing declaration *)

(** The visitor of [findComponentNode], [name] being [options.name]: its
    methods [visitClassDeclaration], [visitFunctionDeclaration] and
    [visitArrowFunctionExpression], with the variable [componentNode] they
    assign as state. *)
Definition componentVisitor (name : string) (p : path)
    (componentNode : option node) : result (option node) :=
  let n := snd p in
  match n with
  | ClassDeclaration id _ _ =>
      match id with
      | None => Throw TypeError
      | Some i =>
          if str_eq (node_name i) (Some name) then Ok (Some n)
          else Ok componentNode
      end
  | FunctionDeclaration id _ _ =>
      match id with
      | Some (Identifier idname) =>
          if String.eqb idname name then Ok (Some n) else Ok componentNode
      | _ => Ok componentNode
      end
  | ArrowFunctionExpression _ _ =>
      match parentNode p with
      | None => Throw TypeError
      | Some (VariableDeclarator (Identifier idname) _) =>
          if String.eqb idname name then Ok (Some n) else Ok componentNode
      | Some _ => Ok componentNode
      end
  | _ => Ok componentNode
  end.

(** [findComponentNode(ast, options)]. *)
Definition findComponentNode (ast : node) (name : string) : result node :=
  componentNode <- visit ast (componentVisitor name) None ;;
  match componentNode with
  | Some c => Ok c
  | None => Throw (Error "The selected text is not a valid React Component !")
  end.

(** [findUpdateSpecialPropTypes(typeNode, name)] and
    [findPropTypesInObjectNode(objectNode)]. The result [None] is the null the
    source returns for a node that is neither a call nor a member expression. *)
Fixpoint findUpdateSpecialPropTypes (typeNode : node) (name : option string)
    {struct typeNode} : result (option PropTypes) :=
  let props := new_PropTypes name in
  (* "if (callee && calleeParams)": the treatment of the special types *)
  let special := fun (props : PropTypes) (callee : node) (calleeParams : node) =>
    let props :=
      match callee with
      | MemberExpression _ (Identifier pname) =>
          if negb (String.eqb pname "any") then set_type (Some pname) props
          else props
      | _ => props
      end in
    match calleeParams with
    | ObjectExpression _ =>
        c <- findPropTypesInObjectNode calleeParams ;;
        Ok (Some (set_childTypes c props))
    | ArrayExpression elements =>
        if str_eq (type props) (Some "oneOf") then
          Ok (Some (set_ast (Some calleeParams) props))
        else
          c <- mapM (fun item =>
                 match item with
                 | Some i => findUpdateSpecialPropTypes i None
                 | None => Throw TypeError
                 end) elements ;;
          Ok (Some (set_childTypes (map Some (filter_truthy c)) props))
    | MemberExpression _ _ =>
        childType <- findUpdateSpecialPropTypes calleeParams None ;;
        match childType with
        | Some c => Ok (Some (set_childTypes [Some c] props))
        | None => Ok (Some props)
        end
    | _ => Ok (Some props)
    end in
  match typeNode with
  | CallExpression callee arguments =>
      match arguments with
      | calleeParams :: _ => special props callee calleeParams
      | [] => Ok (Some props)
      end
  | MemberExpression object property =>
      let props :=
        match object with
        | MemberExpression _ oproperty =>
            if negb (str_eq (node_name oproperty) (Some "any"))
            then set_type (node_name oproperty) props else props
        | Identifier _ =>
            if negb (str_eq (node_name property) (Some "any"))
            then set_type (node_name property) props else props
        | _ => props
        end in
      let props :=
        match property with
        | Identifier "isRequired" => set_isRequired true props
        | _ => props
        end in
      match object with
      | CallExpression callee (calleeParams :: _) =>
          special props callee calleeParams
      | _ => Ok (Some props)
      end
  | _ => Ok None
  end
with findPropTypesInObjectNode (objectNode : node) {struct objectNode}
    : result (list (option PropTypes)) :=
  match objectNode with
  | ObjectExpression properties =>
      mapM (fun p =>
        match p with
        | Property key value => findUpdateSpecialPropTypes value (node_name key)
        | _ => Throw TypeError
        end) properties
  | _ => Ok []
  end.

(** [findPropTypesInPropTypeNode(propNode)], [None] being the null that
    [findPropTypesNode] resolves to when the component has no declaration. *)
Definition findPropTypesInPropTypeNode (propNode : option node)
  : result (list (option PropTypes)) :=
  match propNode with
  | None => Ok []
  | Some (ClassProperty _ value true) =>
      match value with
      | Some v => findPropTypesInObjectNode v
      | None => Ok []
      end
  | Some (AssignmentExpression _ rhs) => findPropTypesInObjectNode rhs
  | Some _ => Ok []
  end.

(** ** utils/propTypesHelper and utils/arrayUtils *)

(** [a || b] on values that are present or undefined. *)
Definition or_else {A : Type} (a b : option A) : option A :=
  match a with
  | Some _ => a
  | None => b
  end.

Section Upsert.
Variable merge : PropTypes -> PropTypes.

(** Modelled from the spec: records are "keyed by name". The record of the
    list that has the name of [c] is replaced by its merge (the first one,
    should several have it); without one, [c] is added at the end. *)
Fixpoint upsert (c : PropTypes) (l : list PropTypes) : list PropTypes :=
  match l with
  | [] => [c]
  | t :: r =>
      if str_eq (name t) (name c) then merge t :: r
      else t :: upsert c r
  end.
End Upsert.

(** Modelled from the spec: [propTypesHelper.customMergePropTypes] is not part
    of the sources. Two records of one name are merged field by field, the
    record of the source that [findPropTypes] folds later having priority
    ("highest wins on conflicting fields", the comment of [findPropTypes]
    giving the last source the highest priority): [type] and [isRequired] are
    the later record's; [defaultValue] (and likewise [ast] and [id]) is the
    later record's when it supplies one and the earlier record's otherwise ("is
    always taken from the defaults source when the higher-priority sources did
    not supply one"); the lists of children are merged by the same rule
    ("union their children lists rather than discarding either side").
    The helper is given two lists and nothing that tells their sources apart,
    so no function of this signature can keep the type and the required flag
    of the defaults source out and take those of the declaration
    ([mergeResults_positions], for any helper): what the helper of the
    repository does where two records disagree is not known here. Nothing
    that is stated below depends on which record has priority. *)
Fixpoint mergePropTypes (target source : PropTypes) {struct source} : PropTypes :=
  match source with
  | mkPropTypes _ stype srequired schildren sast sdefault sid =>
      {| name := name target;
         type := stype;
         isRequired := srequired;
         childTypes :=
           map Some
             ((fix mergeInto (acc : list PropTypes) (src : list (option PropTypes))
                 {struct src} : list PropTypes :=
                 match src with
                 | [] => acc
                 | None :: r => mergeInto acc r
                 | Some c :: r =>
                     mergeInto (upsert (fun t => mergePropTypes t c) c acc) r
                 end) (filter_truthy (childTypes target)) schildren);
         ast := or_else sast (ast target);
         defaultValue := or_else sdefault (defaultValue target);
         id := or_else sid (id target) |}
  end.

(** Modelled from the spec: the records of [source] are merged one by one into
    [acc], keyed by [name]; a null of [source] is passed over ("a null result,
    filtered out of the final list"). *)
Fixpoint mergeInto (acc : list PropTypes) (source : list (option PropTypes))
  : list PropTypes :=
  match source with
  | [] => acc
  | None :: r => mergeInto acc r
  | Some c :: r => mergeInto (upsert (fun t => mergePropTypes t c) c acc) r
  end.

(** Modelled from the spec: [customMergePropTypes(target, source)], see
    [mergePropTypes] and [mergeInto]. *)
Definition customMergePropTypes (target source : list (option PropTypes))
  : list PropTypes :=
  mergeInto (filter_truthy target) source.

(** Modelled from the spec: the order by which [arrayUtils.sortByKey()] compares
    two records is that of their names ("sorted by name (stable, ascending)"),
    strings being compared character by character; a name that is undefined
    comes before every string. *)
Definition name_leb (a b : option string) : bool :=
  match a, b with
  | None, _ => true
  | Some _, None => false
  | Some x, Some y => String.leb x y
  end.

(** Modelled from the spec: a record is put before the first record whose name
    is not smaller than its own, which keeps records of equal names in their
    order ("stable"). *)
Fixpoint insert_sorted (p : PropTypes) (l : list PropTypes) : list PropTypes :=
  match l with
  | [] => [p]
  | q :: r =>
      if name_leb (name p) (name q) then p :: q :: r
      else q :: insert_sorted p r
  end.

(** Modelled from the spec: [array.sort(arrayUtils.sortByKey())], a stable
    ascending sort by name. *)
Definition sortByKey (l : list PropTypes) : list PropTypes :=
  fold_right insert_sorted [] l.

(** The binding a member expression is rooted at: the name of the identifier
    that is its object, or the identity of a class component when its object
    is [this.props]. *)
Definition member_root (object : node) : option string :=
  match object with
  | Identifier oname => Some oname
  | MemberExpression ThisExpression (Identifier "props") => Some "this\.props"
  | _ => None
  end.

(** Modelled from the spec: [propTypesHelper.getPropTypeByMemberExpression(ids,
    path)] is not part of the sources. "Every member-access expression rooted
    at the identity (identity.someProp) contributes a PropertyRecord for
    someProp": for a member expression whose object is one of [ids] and whose
    property is an identifier, the result names that id and carries a new
    record for the property, without binding id ("absent if accessed via
    props.name rather than destructuring"); for any other node both are
    undefined. The spec does not say what binding id, if any, the helper
    gives the record of a member access: without one the recursive calls of
    [findAndCompletePropTypes] return their argument, so a nested access
    ([user.address.city]) is not completed below its first level here. What
    holds of the completion pass whatever the helper returns is stated on
    [AnyHelper.findAndCompletePropTypes]. *)
Definition getPropTypeByMemberExpression (ids : list string) (p : path)
  : option string * option PropTypes :=
  match snd p with
  | MemberExpression object (Identifier pname) =>
      match member_root object with
      | Some root =>
          if includes ids root
          then (Some root, Some (new_PropTypes (Some pname)))
          else (None, None)
      | None => (None, None)
      end
  | _ => (None, None)
  end.

(** ** Usage inference, defaults inference, completion and merge *)

Section Inference.
(** [propTypesHelper.updatePropTypeByNode(node, props)] is not part of the
    sources and [recast.prettyPrint(node, style).code] is a library call:
    the functions that use them take them as parameters. The first returns
    the record it leaves in [props]. *)
Variable updatePropTypeByNode : node -> PropTypes -> PropTypes.
Variable prettyPrint : node -> string.

(** The body of the loop of [findPropTypesInObjectPattern]: the records one
    entry of the pattern pushes. *)
Definition objectPatternEntry (entry : node) : list PropTypes :=
  match entry with
  | Property key property =>
      let props := new_PropTypes (node_name key) in
      match property with
      | AssignmentPattern lhs rhs =>
          match lhs with
          | Identifier lname =>
              let props := updatePropTypeByNode rhs props in
              let props :=
                if negb (str_eq (type props) (Some "any"))
                then set_defaultValue (Some (prettyPrint rhs)) props
                else props in
              [set_id (Some lname) props]
          | _ => []
          end
      | Identifier pname => [set_id (Some pname) props]
      | _ => []
      end
  | _ => []
  end.

(** [findPropTypesInObjectPattern(ast, options)]. *)
Definition findPropTypesInObjectPattern (ast : node) : list PropTypes :=
  match ast with
  | ObjectPattern properties | ObjectExpression properties =>
      flat_map objectPatternEntry properties
  | _ => []
  end.

(** [findPropTypesInDefaultPropsNode(ast, options)]. *)
Definition findPropTypesInDefaultPropsNode (ast : option node)
  : list PropTypes :=
  match ast with
  | None => []
  | Some a =>
      flat_map (fun pn =>
        match snd pn with
        | Property (Identifier kname) value =>
            let props := updatePropTypeByNode value (new_PropTypes (Some kname)) in
            if negb (str_eq (type props) (Some "any"))
            then [set_defaultValue (Some (prettyPrint value)) props]
            else [props]
        | _ => []
        end) (preorder [] a)
  end.

(** [findBlockStatement(path)]: the nearest block statement that encloses
    the path's node, null without one. *)
Definition findBlockStatement (p : path) : option node :=
  find (fun a => match a with BlockStatement _ => true | _ => false end)
       (fst p).

(** The records [findAndCompletePropTypes] may complete: those with a
    binding id whose type is any or shape. *)
Definition completion_candidate (item : PropTypes) : bool :=
  truthy (id item)
  && (str_eq (type item) (Some "any") || str_eq (type item) (Some "shape")).

Definition completion_ids (propTypes : list PropTypes) : list string :=
  flat_map (fun item =>
    if completion_candidate item then opt_list (id item) else []) propTypes.

(** [let u = list.find(pred); if (u) { ... }] for a body that assigns fields
    of [u]: the first record that satisfies [pred] is the one changed. *)
Fixpoint update_first (pred : PropTypes -> bool) (f : PropTypes -> PropTypes)
    (l : list PropTypes) : list PropTypes :=
  match l with
  | [] => []
  | x :: r => if pred x then f x :: r else x :: update_first pred f r
  end.

Definition has_id (i : string) (item : PropTypes) : bool :=
  str_eq (id item) (Some i).

Section CompleteVisitor.
(** The recursive call of the member expression visitor, on the same
    tree. *)
Variable complete : list PropTypes -> option (list PropTypes).
Variable ids : list string.

(** [visitCallExpression] of [findAndCompletePropTypes]. *)
Definition completeCallExpression (p : path) (newPropTypes : list PropTypes)
  : list PropTypes :=
  match snd p with
  | CallExpression (Identifier cname) _ =>
      if includes ids cname
      then update_first (has_id cname) (set_type (Some "func")) newPropTypes
      else newPropTypes
  | _ => newPropTypes
  end.

(** [visitMemberExpression] of [findAndCompletePropTypes]. *)
Definition completeMemberExpression (p : path) (newPropTypes : list PropTypes)
  : option (list PropTypes) :=
  match getPropTypeByMemberExpression ids p with
  | (Some name, Some propType) =>
      if truthy (Some name) && existsb (has_id name) newPropTypes then
        match complete [propType] with
        | Some completed =>
            Some (update_first (has_id name)
                    (fun u =>
                       let u := set_type (Some "shape") u in
                       set_childTypes
                         (map Some (customMergePropTypes (childTypes u)
                                      (map Some completed))) u)
                    newPropTypes)
        | None => None
        end
      else Some newPropTypes
  | _ => Some newPropTypes
  end.

Definition completeVisitor (acc : option (list PropTypes)) (p : path)
  : option (list PropTypes) :=
  match acc with
  | None => None
  | Some newPropTypes =>
      match snd p with
      | CallExpression _ _ => Some (completeCallExpression p newPropTypes)
      | MemberExpression _ _ => completeMemberExpression p newPropTypes
      | _ => Some newPropTypes
      end
  end.
End CompleteVisitor.

(** [findAndCompletePropTypes(ast, propTypes)]. The records of the list it
    returns are the records of [propTypes], changed in place; the result is
    [None] when the fuel does not cover the depth of the recursion. *)
Fixpoint findAndCompletePropTypes (fuel : nat) (ast : option node)
    (propTypes : list PropTypes) : option (list PropTypes) :=
  match fuel with
  | 0 => None
  | S fuel' =>
      let ids := completion_ids propTypes in
      match ids, ast with
      | [], _ => Some propTypes
      | _, None => Some propTypes
      | _, Some a =>
          fold_left
            (completeVisitor (findAndCompletePropTypes fuel' ast) ids)
            (preorder [] a) (Some propTypes)
      end
  end.

Section IdentityVisitor.
Variable byPropsIdentity : node -> option (list PropTypes).
Variable fuel : nat.
Variable isClass : bool.
Variable identity : option string.

(** The visitor [findPropTypesByPropsIdentity] walks its tree with. *)
Definition identityVisitor (acc : option (list PropTypes)) (p : path)
  : option (list PropTypes) :=
  match acc with
  | None => None
  | Some propTypes =>
      match snd p with
      | MethodDefinition (Identifier "constructor")
          (FunctionExpression _ _ _ as value) =>
          if isClass then
            match byPropsIdentity value with
            | Some newPropTypes =>
                Some (customMergePropTypes (map Some propTypes)
                        (map Some newPropTypes))
            | None => None
            end
          else Some propTypes
      | MemberExpression _ _ =>
          match identity with
          | Some i =>
              if truthy identity then
                match snd (getPropTypeByMemberExpression [i] p) with
                | Some propType =>
                    match findAndCompletePropTypes fuel
                            (findBlockStatement p) [propType] with
                    | Some completed =>
                        Some (customMergePropTypes (map Some propTypes)
                                (map Some completed))
                    | None => None
                    end
                | None => Some propTypes
                end
              else Some propTypes
          | None => Some propTypes
          end
      | VariableDeclarator (ObjectPattern _ as idNode) (Some initNode) =>
          if match initNode with
             | MemberExpression ThisExpression property =>
                 str_eq (node_name property) (Some "props")
             | Identifier iname => str_eq (Some iname) identity
             | _ => false
             end
          then
            match findAndCompletePropTypes fuel (findBlockStatement p)
                    (findPropTypesInObjectPattern idNode) with
            | Some newPropTypes =>
                Some (customMergePropTypes (map Some propTypes)
                        (map Some newPropTypes))
            | None => None
            end
          else Some propTypes
      | _ => Some propTypes
      end
  end.
End IdentityVisitor.

Definition function_params (ast : node) : option (list node) :=
  match ast with
  | FunctionDeclaration _ params _
  | ArrowFunctionExpression params _
  | FunctionExpression _ params _ => Some params
  | _ => None
  end.

(** [findPropTypesByPropsIdentity(ast, options)]. *)
Fixpoint findPropTypesByPropsIdentity (fuel : nat) (ast : node)
  : option (list PropTypes) :=
  match fuel with
  | 0 => None
  | S fuel' =>
      let walk := fun isClass identity propTypes =>
        fold_left
          (identityVisitor (findPropTypesByPropsIdentity fuel') fuel'
             isClass identity)
          (preorder [] ast) (Some propTypes) in
      match function_params ast, ast with
      | Some (firstParams :: _), _ =>
          match firstParams with
          | Identifier pname => walk false (Some pname) []
          | ObjectPattern _ =>
              match findAndCompletePropTypes fuel' (Some ast)
                      (findPropTypesInObjectPattern firstParams) with
              | Some newPropTypes =>
                  walk false None
                    (customMergePropTypes [] (map Some newPropTypes))
              | None => None
              end
          | _ => walk false None []
          end
      | _, ClassDeclaration _ _ _ => walk true (Some "this\.props") []
      | _, _ => walk false None []
      end
  end.

(** The continuation of [findPropTypes]: the three lists are merged in the
    order [Promise.all] lists them and the result is sorted. *)
Definition mergeResults (results : list (list (option PropTypes)))
  : list PropTypes :=
  sortByKey
    (fold_left
       (fun total current => customMergePropTypes (map Some total) current)
       results []).

(** [findPropTypes({ componentNode, propTypesNode, defaultPropsNode },
    options)]. *)
Definition findPropTypes (fuel : nat) (componentNode : node)
    (propTypesNode defaultPropsNode : option node)
  : option (result (list PropTypes)) :=
  match findPropTypesByPropsIdentity fuel componentNode with
  | Some usage =>
      Some (explicit <- findPropTypesInPropTypeNode propTypesNode ;;
            Ok (mergeResults
                  [map Some usage;
                   map Some (findPropTypesInDefaultPropsNode defaultPropsNode);
                   explicit]))
  | None => None
  end.
End Inference.

(** Modelled from the spec: [propTypesHelper.updatePropTypeByNode] is not part
    of the sources. "kind inferred structurally from that expression": a
    number, string or boolean literal gives number, string or bool, a function
    gives func, an array literal array, an object literal object; any other
    expression leaves the record as it is ("degrade gracefully to an imprecise
    any type"). *)
Definition updatePropTypeByNode_model (n : node) (props : PropTypes) : PropTypes :=
  match n with
  | Literal (LNumber _) => set_type (Some "number") props
  | Literal (LString _) => set_type (Some "string") props
  | Literal (LBoolean _) => set_type (Some "bool") props
  | ArrowFunctionExpression _ _ | FunctionExpression _ _ _ =>
      set_type (Some "func") props
  | ArrayExpression _ => set_type (Some "array") props
  | ObjectExpression _ => set_type (Some "object") props
  | _ => props
  end.

(** The text [recast.prettyPrint] renders for the expressions the examples
    below use: an identifier is its name, a number its source text, a boolean
    and null their keyword. Other expressions are not rendered here. *)
Definition prettyPrint_model (n : node) : string :=
  match n with
  | Identifier name => name
  | Literal (LNumber raw) => raw
  | Literal (LBoolean true) => "true"
  | Literal (LBoolean false) => "false"
  | Literal LNull => "null"
  | _ => ""
  end.

(** ** bin/cli.js *)

Module Cli.

(** What [fs.statSync] and [fs.readdirSync] tell about a path. *)
Inductive stats :=
| IsFile
| IsDirectory (dirFiles : list string).

(** A file system: the stats of every path that exists. *)
Definition filesystem : Type := string -> option stats.

Definition ends_with (suffix s : string) : bool :=
  Nat.leb (String.length suffix) (String.length s)
  && String.eqb
       (substring (String.length s - String.length suffix)
          (String.length suffix) s) suffix.

(** [filePath.match(/\.(js|jsx|ts|tsx)$/)]. *)
Definition is_javascript (filePath : string) : bool :=
  ends_with ".js" filePath || ends_with ".jsx" filePath
  || ends_with ".ts" filePath || ends_with ".tsx" filePath.

(** [getProjectJavascriptFiles(filePath)]; [None] when the fuel does not
    cover the depth of the recursion. *)
Fixpoint getProjectJavascriptFiles (fs : filesystem) (fuel : nat)
    (filePath : string) : option (result (list string)) :=
  match fuel with
  | 0 => None
  | S fuel' =>
      match fs filePath with
      | None => Some (Throw ENOENT)
      | Some (IsDirectory dirFiles) =>
          fold_left
            (fun acc _ =>
               match acc with
               | Some (Ok files) =>
                   match getProjectJavascriptFiles fs fuel' filePath with
                   | Some (Ok more) => Some (Ok (files ++ more))
                   | other => other
                   end
               | other => other
               end) dirFiles (Some (Ok []))
      | Some IsFile =>
          Some (Ok (if is_javascript filePath then [filePath] else []))
      end
  end.

(** [s.slice(b, e)] for offsets that are not negative. *)
Definition slice (s : string) (b e : nat) : string := substring b (e - b) s.

(** [replaceCode(file, range, code)]: the document the file holds before and
    the one it holds after. *)
Definition replaceCode (document : string) (range : nat * nat) (code : string)
  : string :=
  slice document 0 (fst range) ++ code
    ++ slice document (snd range) (String.length document).

(** [insertCode(file, position, code)]. *)
Definition insertCode (document : string) (position : nat) (code : string)
  : string :=
  slice document 0 position ++ code
    ++ slice document position (String.length document).

(** The options the sources read. *)
Record options := {
  name : string;
  alias : option string;
  codeStyle : option string;
  autoImport : option string
}.

Definition set_codeStyle (c : string) (o : options) : options :=
  {| name := name o; alias := alias o; codeStyle := Some c;
     autoImport := autoImport o |}.

(** [componentNode.body]. *)
Definition node_body (n : node) : option node :=
  match n with
  | ArrowFunctionExpression _ body
  | FunctionExpression _ _ body
  | FunctionDeclaration _ _ body
  | ClassDeclaration _ _ body => Some body
  | _ => None
  end.

Definition nl : string := String "010"%char EmptyString.

Section Generate.
Variable updatePropTypeByNode : node -> PropTypes -> PropTypes.
Variable prettyPrint : node -> string.
(** [node.range], the offsets the parser annotates a node with, and
    [codeBuilder.buildPropTypes(propTypes, options)], the renderer. *)
Variable range : node -> nat * nat.
Variable buildPropTypes : list PropTypes -> options -> string.

(** The code style [generatePropTypes] settles on before it renders. *)
Definition resolveCodeStyle (o : options) (componentNode : node)
    (propTypesNode : option node) : options :=
  match propTypesNode with
  | Some (AssignmentExpression _ _) => set_codeStyle "default" o
  | Some (ClassProperty _ _ _) => set_codeStyle "class" o
  | Some _ => o
  | None =>
      match componentNode with
      | FunctionDeclaration _ _ _ | ArrowFunctionExpression _ _ =>
          set_codeStyle "default" o
      | _ => o
      end
  end.

(** The continuation of [generatePropTypes] that receives the merged
    records: the document the file holds afterwards, or the error. *)
Definition writePropTypes (document : string) (o : options)
    (componentNode : node) (propTypesNode : option node)
    (propTypes : list PropTypes) : result string :=
  if Nat.eqb (List.length propTypes) 0 then Throw (Error "Not find any props")
  else
    let o := resolveCodeStyle o componentNode propTypesNode in
    let code := buildPropTypes propTypes o in
    match propTypesNode with
    | Some p => Ok (replaceCode document (range p) code)
    | None =>
        if str_eq (codeStyle o) (Some "class") then
          match node_body componentNode with
          | Some body =>
              Ok (insertCode document (fst (range body) + 1)
                    (nl ++ "  " ++ code ++ nl))
          | None => Ok document
          end
        else
          Ok (insertCode document (snd (range componentNode))
                (nl ++ nl ++ code))
    end.

(** [generatePropTypes] from the nodes the three locators resolved to, up
    to the write of the declaration. *)
Definition generatePropTypes (fuel : nat) (document : string) (o : options)
    (componentNode : node) (propTypesNode defaultPropsNode : option node)
  : option (result string) :=
  match findPropTypes updatePropTypeByNode prettyPrint fuel
          componentNode propTypesNode defaultPropsNode with
  | Some r =>
      Some (propTypes <- r ;;
            writePropTypes document o componentNode propTypesNode propTypes)
  | None => None
  end.
End Generate.

End Cli.

(** * The vocabulary of the properties, and examples *)

(** [document'] is [document] with the text between the offsets [b] and [e]
    replaced by [text]; with [b = e] the text is inserted at that offset. *)
Definition replaces (document : string) (b e : nat) (text document' : string)
  : Prop :=
  exists pre mid post : string,
    document = (pre ++ mid ++ post)%string
    /\ String.length pre = b /\ String.length mid = e - b
    /\ document' = (pre ++ text ++ post)%string.

Definition is_function_component (n : node) : bool :=
  match n with
  | FunctionDeclaration _ _ _ | ArrowFunctionExpression _ _ => true
  | _ => false
  end.

Module WriteExamples.
Definition build (_ : list PropTypes) (_ : Cli.options) : string := "X".

Definition unconfigured : Cli.options :=
  {| Cli.name := "A"; Cli.alias := None; Cli.codeStyle := None;
     Cli.autoImport := None |}.

Definition class_style : Cli.options :=
  {| Cli.name := "A"; Cli.alias := None; Cli.codeStyle := Some "class";
     Cli.autoImport := None |}.

(** [Foo.propTypes = {};] and its assignment expression. *)
Definition declared : string := "Foo.propTypes = {};".
Definition declaration : node :=
  AssignmentExpression
    (MemberExpression (Identifier "Foo") (Identifier "propTypes"))
    (ObjectExpression []).
Definition function_component : node :=
  FunctionDeclaration (Some (Identifier "Foo")) [] (BlockStatement []).

(** [class A{}], the class declaration and its body. *)
Definition class_document : string := "class A{}".
Definition class_component : node :=
  ClassDeclaration (Some (Identifier "A")) None (Other "ClassBody" []).

Definition range (n : node) : nat * nat :=
  match n with
  | AssignmentExpression _ _ => (0, 18)
  | ClassDeclaration _ _ _ => (0, 9)
  | Other _ _ => (7, 9)
  | _ => (0, 0)
  end.
End WriteExamples.

(** The nodes [findComponentNode] takes for the component [name]: a class
    declaration or a function declaration whose identifier is [name], and an
    arrow function that is enclosed by a variable declarator whose identifier
    is [name]. *)
Definition component_match (name : string) (p : path) : bool :=
  match snd p with
  | ClassDeclaration (Some i) _ _ => str_eq (node_name i) (Some name)
  | FunctionDeclaration (Some (Identifier idname)) _ _ => String.eqb idname name
  | ArrowFunctionExpression _ _ =>
      match parentNode p with
      | Some (VariableDeclarator (Identifier idname) _) => String.eqb idname name
      | _ => false
      end
  | _ => false
  end.

(** The nodes at which the visitor of [findComponentNode] reads a property of
    null: a class declaration without identifier, and an arrow function that
    nothing encloses. *)
Definition component_visit_throws (p : path) : bool :=
  match snd p with
  | ClassDeclaration None _ _ => true
  | ArrowFunctionExpression _ _ =>
      match parentNode p with
      | None => true
      | Some _ => false
      end
  | _ => false
  end.

(** The nodes the claim of the spec takes for the component [name]: as
    [component_match], and a function expression bound to a variable of that
    name as well. *)
Definition spec_component_match (name : string) (p : path) : bool :=
  match snd p with
  | ClassDeclaration (Some i) _ _ => str_eq (node_name i) (Some name)
  | FunctionDeclaration (Some (Identifier idname)) _ _ => String.eqb idname name
  | ArrowFunctionExpression _ _ | FunctionExpression _ _ _ =>
      match parentNode p with
      | Some (VariableDeclarator (Identifier idname) _) => String.eqb idname name
      | _ => false
      end
  | _ => false
  end.

Module LocatorExamples.
(** [function Foo() {} function Bar() { const Foo = () => null; }] *)
Definition foo_declaration : node :=
  FunctionDeclaration (Some (Identifier "Foo")) [] (BlockStatement []).
Definition foo_arrow : node := ArrowFunctionExpression [] (Literal LNull).
Definition two_foos : node :=
  Other "Program"
    [foo_declaration;
     FunctionDeclaration (Some (Identifier "Bar")) []
       (BlockStatement
          [Other "VariableDeclaration"
             [VariableDeclarator (Identifier "Foo") (Some foo_arrow)]])].

(** [const Foo = function () {};] *)
Definition foo_expression : node :=
  FunctionExpression None [] (BlockStatement []).
Definition bound_function_expression : node :=
  Other "Program"
    [Other "VariableDeclaration"
       [VariableDeclarator (Identifier "Foo") (Some foo_expression)]].
End LocatorExamples.

Definition call_or_member (n : node) : bool :=
  match n with
  | CallExpression _ _ | MemberExpression _ _ => true
  | _ => false
  end.

Module InterpreterExamples.
Definition propType (kind : string) : node :=
  MemberExpression (Identifier "PropTypes") (Identifier kind).

(** [Foo.propTypes = { a: 5, b: PropTypes.shape({ c: 5 }),
                       d: PropTypes.oneOfType([5, PropTypes.string]) }] *)
Definition declaration : node :=
  AssignmentExpression
    (MemberExpression (Identifier "Foo") (Identifier "propTypes"))
    (ObjectExpression
       [Property (Identifier "a") (Literal (LNumber "5"));
        Property (Identifier "b")
          (CallExpression (propType "shape")
             [ObjectExpression
                [Property (Identifier "c") (Literal (LNumber "5"))]]);
        Property (Identifier "d")
          (CallExpression (propType "oneOfType")
             [ArrayExpression
                [Some (Literal (LNumber "5")); Some (propType "string")]])]).
End InterpreterExamples.

Module PatternExamples.
(** [{ a, b = 1 }] *)
Definition a_b_1 : node :=
  ObjectPattern
    [Property (Identifier "a") (Identifier "a");
     Property (Identifier "b")
       (AssignmentPattern (Identifier "b") (Literal (LNumber "1")))].

(** [{ a = fallback }] *)
Definition a_fallback : node :=
  ObjectPattern
    [Property (Identifier "a")
       (AssignmentPattern (Identifier "a") (Identifier "fallback"))].
End PatternExamples.




Module OrderExamples.
Definition typed (n t : string) : PropTypes :=
  set_type (Some t) (new_PropTypes (Some n)).
End OrderExamples.









Module CompletionExamples.
(** The records of [var { a: x = 1, b: x } = props]. *)
Definition records : list PropTypes :=
  [set_id (Some "x")
     (set_defaultValue (Some "1")
        (set_type (Some "number") (new_PropTypes (Some "a"))));
   set_id (Some "x") (new_PropTypes (Some "b"))].

(** [{ x(); }] *)
Definition block : node :=
  BlockStatement
    [Other "ExpressionStatement" [CallExpression (Identifier "x") []]].

(** [function Foo(props) { var { a: x = 1, b: x } = props; x(); }] *)
Definition component : node :=
  FunctionDeclaration (Some (Identifier "Foo")) [Identifier "props"]
    (BlockStatement
       [Other "VariableDeclaration"
          [VariableDeclarator
             (ObjectPattern
                [Property (Identifier "a")
                   (AssignmentPattern (Identifier "x") (Literal (LNumber "1")));
                 Property (Identifier "b") (Identifier "x")])
             (Some (Identifier "props"))];
        Other "ExpressionStatement" [CallExpression (Identifier "x") []]]).
End CompletionExamples.

(** ** bin/cli.js: the import line *)

Module CliImport.

Section ImportLine.
(** [node.range]; [actions.findImportOrRequireModuleNode(ast, options)], which
    is not part of the sources, through the two nodes it returns;
    [ast.body[0]]; and [codeBuilder.buildImportCode(options)], the renderer of
    the import line. *)
Variable range : node -> nat * nat.
Variable importNode requireNode : option node.
Variable firstBody : option node.
Variable buildImportCode : Cli.options -> string.

(** The last continuation of [generatePropTypes]: the document the file holds
    after it, from the document the write of the declaration has left and the
    options as that write has left them. *)
Definition insertImport (document : string) (o : Cli.options) : string :=
  if negb (str_eq (Cli.autoImport o) (Some "disable")) then
    let importCode := buildImportCode o in
    match importNode, requireNode, firstBody with
    | None, None, Some first =>
        if negb (String.eqb importCode "") then
          Cli.insertCode document (fst (range first)) (importCode ++ Cli.nl)
        else document
    | _, _, _ => document
    end
  else document.

Variable buildPropTypes : list PropTypes -> Cli.options -> string.

(** The two continuations of [generatePropTypes] one after the other, from the
    merged records: an error of the first skips the second. *)
Definition writeAndImport (document : string) (o : Cli.options)
    (componentNode : node) (propTypesNode : option node)
    (propTypes : list PropTypes) : result string :=
  written <- Cli.writePropTypes range buildPropTypes document o componentNode
               propTypesNode propTypes ;;
  Ok (insertImport written
        (Cli.resolveCodeStyle o componentNode propTypesNode)).
End ImportLine.

End CliImport.

Module ImportExamples.
(** [Foo.propTypes = {};] as the first statement of its file. *)
Definition statement : node :=
  Other "ExpressionStatement" [WriteExamples.declaration].

Definition range (n : node) : nat * nat :=
  match n with
  | AssignmentExpression _ _ => (0, 18)
  | _ => (0, 19)
  end.

Definition buildImportCode (_ : Cli.options) : string :=
  "import PropTypes from 'prop-types';".
End ImportExamples.

(** ** The interpreter of an existing declaration, piece by piece *)

(** The type that the callee of a call gives: "if (callee.type ===
    'MemberExpression')" in the treatment of the special types. *)
Definition callee_props (callee : node) (props : PropTypes) : PropTypes :=
  match callee with
  | MemberExpression _ (Identifier pname) =>
      if negb (String.eqb pname "any") then set_type (Some pname) props
      else props
  | _ => props
  end.

(** The treatment of the special types in [findUpdateSpecialPropTypes]: the
    body of "if (callee && calleeParams)", up to the return. *)
Definition specialPropTypes (props : PropTypes) (callee calleeParams : node)
  : result (option PropTypes) :=
  let props := callee_props callee props in
  match calleeParams with
  | ObjectExpression _ =>
      c <- findPropTypesInObjectNode calleeParams ;;
      Ok (Some (set_childTypes c props))
  | ArrayExpression elements =>
      if str_eq (type props) (Some "oneOf") then
        Ok (Some (set_ast (Some calleeParams) props))
      else
        c <- mapM (fun item =>
               match item with
               | Some i => findUpdateSpecialPropTypes i None
               | None => Throw TypeError
               end) elements ;;
        Ok (Some (set_childTypes (map Some (filter_truthy c)) props))
  | MemberExpression _ _ =>
      childType <- findUpdateSpecialPropTypes calleeParams None ;;
      match childType with
      | Some c => Ok (Some (set_childTypes [Some c] props))
      | None => Ok (Some props)
      end
  | _ => Ok (Some props)
  end.

(** The type that a member expression gives, by its object. *)
Definition object_props (object property : node) (props : PropTypes)
  : PropTypes :=
  match object with
  | MemberExpression _ oproperty =>
      if negb (str_eq (node_name oproperty) (Some "any"))
      then set_type (node_name oproperty) props else props
  | Identifier _ =>
      if negb (str_eq (node_name property) (Some "any"))
      then set_type (node_name property) props else props
  | _ => props
  end.

(** "if (property.type === 'Identifier' && property.name === 'isRequired')". *)
Definition required_props (property : node) (props : PropTypes) : PropTypes :=
  match property with
  | Identifier "isRequired" => set_isRequired true props
  | _ => props
  end.

(** The expressions [x.isRequired]. *)
Definition required_member (typeNode : node) : bool :=
  match typeNode with
  | MemberExpression _ (Identifier "isRequired") => true
  | _ => false
  end.

(** What the interpreter leaves of a new record named [n]: the name, no
    default value, no binding id, and a literal set only with the type
    oneOf. *)
Definition declared_record (n : option string) (req : bool) (p : PropTypes)
  : Prop :=
  name p = n /\ isRequired p = req
  /\ defaultValue p = None /\ id p = None
  /\ (ast p = None \/ type p = Some "oneOf").

Module RecordExamples.
(** [PropTypes.string.isRequired] *)
Definition required_string : node :=
  MemberExpression (InterpreterExamples.propType "string")
    (Identifier "isRequired").
End RecordExamples.

(** ** The nodes of a tree *)

(** [d] is a node of the tree [n]: the node itself, or a node of one of its
    children. *)
Inductive inside : node -> node -> Prop :=
| inside_here : forall n, inside n n
| inside_child : forall n c d, In c (children n) -> inside c d -> inside n d.

Definition is_property (n : node) : bool :=
  match n with
  | Property _ _ => true
  | _ => false
  end.

(** The interpreter throws nothing but a TypeError on the node [d]. *)
Definition throws_TypeError_only (d : node) : Prop :=
  (forall n e, findUpdateSpecialPropTypes d n = Throw e -> e = TypeError)
  /\ (forall e, findPropTypesInObjectNode d = Throw e -> e = TypeError).

Module SpreadExamples.
(** [Foo.propTypes = { ...Base.propTypes, a: PropTypes.string }] *)
Definition declaration : node :=
  AssignmentExpression
    (MemberExpression (Identifier "Foo") (Identifier "propTypes"))
    (ObjectExpression
       [SpreadElement
          (MemberExpression (Identifier "Base") (Identifier "propTypes"));
        Property (Identifier "a") (InterpreterExamples.propType "string")]).
Definition options : Cli.options :=
  {| Cli.name := "Foo"; Cli.alias := None; Cli.codeStyle := None;
     Cli.autoImport := None |}.
End SpreadExamples.

(** ** The locator of a declaration *)

(** "alias || 'propTypes'": the property the locator looks for. *)
Definition propTypesLabel (alias : option string) : string :=
  match alias with
  | Some a => if truthy alias then a else "propTypes"
  | None => "propTypes"
  end.

(** [path.parentPath.parentPath.parentPath.node] at a class property. A class
    property is an element of the array [body] of its class body, so the
    first parent path is the path of that array, the second the path of the
    class body, and the third the path of what holds the class body: its node
    is the node that encloses the class body, null when the class body is the
    root of the walk. At the root itself the second parent path is null and
    the access throws. *)
Definition classNodeOf (p : path) : result (option node) :=
  match fst p with
  | [] => Throw TypeError
  | _ :: enclosing => Ok (hd_error enclosing)
  end.

(** The visitor of [findPropTypesNode]: its methods
    [visitAssignmentExpression] and [visitClassProperty], with the variables
    [propTypesNode] and [propTypesClassPropertyNode] they assign as state. *)
Definition propTypesNodeVisitor (name : string) (alias : option string)
    (p : path) (s : option node * option node)
  : result (option node * option node) :=
  let n := snd p in
  match n with
  | AssignmentExpression lhs rhs =>
      match lhs, rhs with
      | MemberExpression (Identifier oname) (Identifier pname),
        ObjectExpression _ =>
          if String.eqb oname name && String.eqb pname (propTypesLabel alias)
          then Ok (Some n, snd s)
          else Ok s
      | _, _ => Ok s
      end
  | ClassProperty key value static =>
      match key, value with
      | Identifier kname, Some (ObjectExpression _) =>
          if String.eqb kname (propTypesLabel alias) && static then
            classNode <- classNodeOf p ;;
            match classNode with
            | Some (ClassDeclaration id _ _) =>
                match id with
                | None => Throw TypeError
                | Some i =>
                    if str_eq (node_name i) (Some name)
                    then Ok (fst s, Some n)
                    else Ok s
                end
            | _ => Ok s
            end
          else Ok s
      | _, _ => Ok s
      end
  | _ => Ok s
  end.

(** [findPropTypesNode(ast, options)], [name] and [alias] being the fields
    of the options it reads. *)
Definition findPropTypesNode (ast : node) (name : string)
    (alias : option string) : result (option node) :=
  s <- visit ast (propTypesNodeVisitor name alias) (None, None) ;;
  match snd s with
  | Some classProperty => Ok (Some classProperty)
  | None => Ok (fst s)
  end.

(** The assignments [name.label = { ... }]. *)
Definition assignment_match (name label : string) (p : path) : bool :=
  match snd p with
  | AssignmentExpression
      (MemberExpression (Identifier oname) (Identifier pname))
      (ObjectExpression _) =>
      String.eqb oname name && String.eqb pname label
  | _ => false
  end.

(** The static class properties [label = { ... }]. *)
Definition static_property (label : string) (n : node) : bool :=
  match n with
  | ClassProperty (Identifier kname) (Some (ObjectExpression _)) true =>
      String.eqb kname label
  | _ => false
  end.

(** The static class properties [label = { ... }] in the body of a class
    declaration whose identifier is [name]. *)
Definition class_property_match (name label : string) (p : path) : bool :=
  static_property label (snd p)
  && match fst p with
     | _ :: ClassDeclaration (Some i) _ _ :: _ =>
         str_eq (node_name i) (Some name)
     | _ => false
     end.

(** The nodes at which the visitor of [findPropTypesNode] reads a property
    of null: a static class property [label = { ... }] that nothing encloses,
    or whose class declaration has no identifier. *)
Definition propTypes_visit_throws (label : string) (p : path) : bool :=
  static_property label (snd p)
  && match fst p with
     | [] => true
     | _ :: ClassDeclaration None _ _ :: _ => true
     | _ => false
     end.

(** The object literal of a declaration. *)
Definition declared_object (n : node) : option node :=
  match n with
  | AssignmentExpression _ rhs => Some rhs
  | ClassProperty _ value _ => value
  | _ => None
  end.

Module DeclarationExamples.
(** [class Foo { static propTypes = { a: PropTypes.string } }
    Foo.propTypes = {};] *)
Definition static_field : node :=
  ClassProperty (Identifier "propTypes")
    (Some (ObjectExpression
             [Property (Identifier "a") (InterpreterExamples.propType "string")]))
    true.
Definition foo_class : node :=
  ClassDeclaration (Some (Identifier "Foo")) None
    (Other "ClassBody" [static_field]).
Definition both : node :=
  Other "Program"
    [foo_class; Other "ExpressionStatement" [WriteExamples.declaration]].
End DeclarationExamples.

(** ** Scopes, defaults and bindings *)

(** [d] is a node of a child of [b]: [b] encloses [d]. *)
Definition encloses (b d : node) : Prop :=
  exists c, In c (children b) /\ inside c d.

Definition is_block (n : node) : bool :=
  match n with
  | BlockStatement _ => true
  | _ => false
  end.

(** The local name an entry of an object pattern binds: [{ key: i }] and
    [{ key: i = value }] bind [i]; a nested pattern and a rest element bind
    no name the inference records. *)
Definition binding_of (entry : node) : list string :=
  match entry with
  | Property _ (Identifier i) => [i]
  | Property _ (AssignmentPattern (Identifier i) _) => [i]
  | _ => []
  end.

Module ScopeExamples.
(** [{ x(); }] in [function Foo(props) { if (a) { x(); } }]: the call, the
    statement that holds it and the blocks that enclose it. *)
Definition call : node := CallExpression (Identifier "x") [].
Definition inner : node :=
  BlockStatement [Other "ExpressionStatement" [call]].
Definition outer : node :=
  BlockStatement [Other "IfStatement" [Identifier "a"; inner]].
Definition component : node :=
  FunctionDeclaration (Some (Identifier "Foo")) [Identifier "props"] outer.
Definition call_path : path :=
  ([Other "ExpressionStatement" [call]; inner;
    Other "IfStatement" [Identifier "a"; inner]; outer; component], call).

(** [{ style: { color: 1 } }] *)
Definition nested_defaults : node :=
  ObjectExpression
    [Property (Identifier "style")
       (ObjectExpression
          [Property (Identifier "color") (Literal (LNumber "1"))])].
End ScopeExamples.

(** ** The completion pass and the merge, whatever the helpers do *)

Module AnyHelper.
Section Helpers.
(** [propTypesHelper.getPropTypeByMemberExpression],
    [propTypesHelper.customMergePropTypes] and [arrayUtils.sortByKey()] are
    not part of the sources. Here the functions of the sources that call them
    take them as parameters: what is proved of these functions holds of the
    sources whatever the helpers do. *)
Variable getPropTypeByMemberExpression :
  list string -> path -> option string * option PropTypes.
Variable customMergePropTypes :
  list (option PropTypes) -> list (option PropTypes) -> list PropTypes.
Variable sortByKey : list PropTypes -> list PropTypes.

Section CompleteVisitor.
Variable complete : list PropTypes -> option (list PropTypes).
Variable ids : list string.

(** [visitMemberExpression] of [findAndCompletePropTypes]. *)
Definition completeMemberExpression (p : path) (newPropTypes : list PropTypes)
  : option (list PropTypes) :=
  match getPropTypeByMemberExpression ids p with
  | (Some name, Some propType) =>
      if truthy (Some name) && existsb (has_id name) newPropTypes then
        match complete [propType] with
        | Some completed =>
            Some (update_first (has_id name)
                    (fun u =>
                       let u := set_type (Some "shape") u in
                       set_childTypes
                         (map Some (customMergePropTypes (childTypes u)
                                      (map Some completed))) u)
                    newPropTypes)
        | None => None
        end
      else Some newPropTypes
  | _ => Some newPropTypes
  end.

Definition completeVisitor (acc : option (list PropTypes)) (p : path)
  : option (list PropTypes) :=
  match acc with
  | None => None
  | Some newPropTypes =>
      match snd p with
      | CallExpression _ _ => Some (completeCallExpression ids p newPropTypes)
      | MemberExpression _ _ => completeMemberExpression p newPropTypes
      | _ => Some newPropTypes
      end
  end.
End CompleteVisitor.

(** [findAndCompletePropTypes(ast, propTypes)]; [None] when the fuel does
    not cover the depth of the recursion. *)
Fixpoint findAndCompletePropTypes (fuel : nat) (ast : option node)
    (propTypes : list PropTypes) : option (list PropTypes) :=
  match fuel with
  | 0 => None
  | S fuel' =>
      let ids := completion_ids propTypes in
      match ids, ast with
      | [], _ => Some propTypes
      | _, None => Some propTypes
      | _, Some a =>
          fold_left
            (completeVisitor (findAndCompletePropTypes fuel' ast) ids)
            (preorder [] a) (Some propTypes)
      end
  end.

(** The continuation of [findPropTypes]. *)
Definition mergeResults (results : list (list (option PropTypes)))
  : list PropTypes :=
  sortByKey
    (fold_left
       (fun total current => customMergePropTypes (map Some total) current)
       results []).

(** What a node of the tree tells about a binding, as the visitor of
    [findAndCompletePropTypes] reads it: a call of one of [ids] makes the
    record of the binding a func; a member expression for which the helper
    names a binding and gives a record makes the record of that binding a
    shape. *)
Definition evidence (ids : list string) (p : path)
  : option (string * string) :=
  match snd p with
  | CallExpression (Identifier cname) _ =>
      if includes ids cname then Some (cname, "func") else None
  | MemberExpression _ _ =>
      match getPropTypeByMemberExpression ids p with
      | (Some name, Some _) =>
          if truthy (Some name) then Some (name, "shape") else None
      | _ => None
      end
  | _ => None
  end.

(** The types the nodes of [paths] give the binding [i], in visiting
    order. *)
Definition evidence_for (ids : list string) (i : string) (paths : list path)
  : list string :=
  flat_map (fun p =>
              match evidence ids p with
              | Some (n, t) => if String.eqb n i then [t] else []
              | None => []
              end) paths.
End Helpers.
End AnyHelper.

(** What a step of the completion pass does to the record it finds: it sets
    the type to [t] and may set the children. *)
Definition completion_step (t : string) (u u' : PropTypes) : Prop :=
  name u' = name u /\ isRequired u' = isRequired u /\ ast u' = ast u
  /\ defaultValue u' = defaultValue u /\ id u' = id u
  /\ type u' = Some t.

(** What the completion pass leaves of a record: the name, the required
    flag, the literal set, the default value and the binding id; a record it
    has changed has a binding id and is a func or a shape. *)
Definition completion_kept (r r' : PropTypes) : Prop :=
  name r' = name r /\ isRequired r' = isRequired r /\ ast r' = ast r
  /\ defaultValue r' = defaultValue r /\ id r' = id r
  /\ (r' = r
      \/ ((exists i, id r = Some i)
          /\ (type r' = Some "func" \/ type r' = Some "shape"))).


Module SiteOrderExamples.
(** [function Foo({ x }) { x(); x.a; }] and
    [function Foo({ x }) { x.a; x(); }]: the same two usage sites in either
    order. *)
Definition call : node :=
  Other "ExpressionStatement" [CallExpression (Identifier "x") []].
Definition access : node :=
  Other "ExpressionStatement"
    [MemberExpression (Identifier "x") (Identifier "a")].
Definition component (body : list node) : node :=
  FunctionDeclaration (Some (Identifier "Foo"))
    [ObjectPattern [Property (Identifier "x") (Identifier "x")]]
    (BlockStatement body).
Definition x_record : PropTypes := set_id (Some "x") (new_PropTypes (Some "x")).
Definition a_child : list (option PropTypes) := [Some (new_PropTypes (Some "a"))].
End SiteOrderExamples.

(** * Properties *)

(** ** The project command's file scan *)

Lemma fold_left_stuck {A B : Type} (f : option A -> B -> option A) (l : list B) :
  (forall b, f None b = None) -> fold_left f l None = None.
Proof.
  intros Hf. induction l as [|b l IH]; simpl; [reflexivity|].
  rewrite Hf. exact IH.
Qed.

Lemma getProjectJavascriptFiles_directory fs filePath d ds :
  fs filePath = Some (Cli.IsDirectory (d :: ds)) ->
  forall fuel, Cli.getProjectJavascriptFiles fs fuel filePath = None.
Proof.
  intros Hdir fuel. induction fuel as [|fuel IH]; simpl; [reflexivity|].
  rewrite Hdir. simpl. rewrite IH.
  apply fold_left_stuck. reflexivity.
Qed.

(** C10. The recursive call of [getProjectJavascriptFiles] is applied to the
    directory's own path, once per entry: on a directory with at least one
    entry no amount of fuel lets the scan return (in JavaScript the call stack
    overflows). It returns only on a path
    that is not a directory (the path itself when it ends in .js, .jsx, .ts or
    .tsx, nothing otherwise), on an empty directory (nothing), and it throws
    on a path that does not exist. *)
Theorem getProjectJavascriptFiles_returns_only_off_directories :
  forall (fs : Cli.filesystem) (filePath : string),
    match fs filePath with
    | Some (Cli.IsDirectory (_ :: _)) =>
        forall fuel, Cli.getProjectJavascriptFiles fs fuel filePath = None
    | Some (Cli.IsDirectory []) =>
        forall fuel,
          Cli.getProjectJavascriptFiles fs (S fuel) filePath = Some (Ok [])
    | Some Cli.IsFile =>
        forall fuel,
          Cli.getProjectJavascriptFiles fs (S fuel) filePath
          = Some (Ok (if Cli.is_javascript filePath then [filePath] else []))
    | None =>
        forall fuel,
          Cli.getProjectJavascriptFiles fs (S fuel) filePath
          = Some (Throw ENOENT)
    end.
Proof.
  intros fs filePath.
  destruct (fs filePath) as [[|[|d ds]]|] eqn:Hfs.
  - intros fuel. simpl. rewrite Hfs. reflexivity.
  - intros fuel. simpl. rewrite Hfs. reflexivity.
  - apply (getProjectJavascriptFiles_directory fs filePath d ds Hfs).
  - intros fuel. simpl. rewrite Hfs. reflexivity.
Qed.

Example is_javascript_examples :
  Cli.is_javascript "src/App.jsx" = true
  /\ Cli.is_javascript "index.ts" = true
  /\ Cli.is_javascript "README.md" = false
  /\ Cli.is_javascript "js" = false.
Proof. repeat split; reflexivity. Qed.

(** ** The write of the declaration *)

Lemma string_length_append (a b : string) :
  String.length (a ++ b)%string = String.length a + String.length b.
Proof. induction a as [|c a IH]; simpl; [reflexivity|]. now rewrite IH. Qed.

Lemma substring_all (s : string) : substring 0 (String.length s) s = s.
Proof. induction s as [|c s IH]; simpl; [reflexivity|]. now rewrite IH. Qed.

Lemma substring_split (s : string) (n : nat) :
  n <= String.length s ->
  exists pre post : string,
    s = (pre ++ post)%string /\ String.length pre = n
    /\ substring 0 n s = pre
    /\ substring n (String.length s - n) s = post.
Proof.
  revert s. induction n as [|n IH]; intros s Hn.
  - exists EmptyString, s. rewrite Nat.sub_0_r, substring_all.
    repeat split. destruct s; reflexivity.
  - destruct s as [|c s]; simpl in Hn; [lia|].
    destruct (IH s) as (pre & post & Hs & Hlen & Hpre & Hpost); [lia|].
    exists (String c pre), post. simpl.
    rewrite Hpre, Hpost, Hlen. repeat split. now rewrite Hs at 1.
Qed.

Lemma substring_skip (pre r : string) (k m : nat) :
  substring (String.length pre + k) m (pre ++ r)%string = substring k m r.
Proof. induction pre as [|c pre IH]; simpl; [reflexivity|]. exact IH. Qed.

Lemma replaceCode_replaces (document : string) (b e : nat) (code : string) :
  b <= e <= String.length document ->
  replaces document b e code (Cli.replaceCode document (b, e) code).
Proof.
  intros [Hbe He].
  destruct (substring_split document b) as (pre & rest & Hd & Hlen & Hpre & _);
    [lia|].
  assert (Hrest : String.length document = b + String.length rest)
    by (rewrite Hd at 1; rewrite string_length_append; lia).
  destruct (substring_split rest (e - b)) as (mid & post & Hr & Hmid & _ & Hpost);
    [lia|].
  exists pre, mid, post. repeat split; try assumption.
  - now rewrite <- Hr.
  - unfold Cli.replaceCode, Cli.slice. simpl fst. simpl snd.
    rewrite Nat.sub_0_r, Hpre. do 2 f_equal.
    rewrite <- Hpost.
    replace (String.length rest - (e - b)) with (String.length document - e)
      by lia.
    rewrite Hd at 2. replace e with (String.length pre + (e - b)) at 1 by lia.
    apply substring_skip.
Qed.

Lemma insertCode_replaces (document : string) (position : nat) (code : string) :
  position <= String.length document ->
  replaces document position position code
    (Cli.insertCode document position code).
Proof.
  intros H.
  exact (replaceCode_replaces document position position code (conj (le_n _) H)).
Qed.

(** C6, as the code has it. With records to render, an existing declaration
    node has exactly the text of its range replaced by the rendered
    declaration. Without one the rendered declaration is inserted, between
    line breaks, at the end of the component's range, unless the configured
    code style is "class" and the component is neither a function declaration
    nor an arrow function: then it is inserted one past the start of the
    component's body. *)
Theorem writePropTypes_replaces_or_inserts :
  forall (range : node -> nat * nat)
         (buildPropTypes : list PropTypes -> Cli.options -> string)
         (document : string) (o : Cli.options) (componentNode : node)
         (propTypesNode : option node) (propTypes : list PropTypes),
    propTypes <> [] ->
    let o' := Cli.resolveCodeStyle o componentNode propTypesNode in
    let code := buildPropTypes propTypes o' in
    let written :=
      Cli.writePropTypes range buildPropTypes document o componentNode
        propTypesNode propTypes in
    (forall p,
        propTypesNode = Some p ->
        fst (range p) <= snd (range p) <= String.length document ->
        exists document',
          written = Ok document'
          /\ replaces document (fst (range p)) (snd (range p)) code document')
    /\ (propTypesNode = None ->
        str_eq (Cli.codeStyle o') (Some "class")
        = str_eq (Cli.codeStyle o) (Some "class")
          && negb (is_function_component componentNode))
    /\ (propTypesNode = None ->
        str_eq (Cli.codeStyle o') (Some "class") = false ->
        snd (range componentNode) <= String.length document ->
        exists document',
          written = Ok document'
          /\ replaces document (snd (range componentNode))
               (snd (range componentNode)) (Cli.nl ++ Cli.nl ++ code)%string document')
    /\ (propTypesNode = None ->
        str_eq (Cli.codeStyle o') (Some "class") = true ->
        forall body,
          Cli.node_body componentNode = Some body ->
          fst (range body) + 1 <= String.length document ->
          exists document',
            written = Ok document'
            /\ replaces document (fst (range body) + 1) (fst (range body) + 1)
                 (Cli.nl ++ "  " ++ code ++ Cli.nl)%string document').
Proof.
  intros range build document o cn pn propTypes Hne o' code written.
  assert (Hlen : Nat.eqb (List.length propTypes) 0 = false)
    by (destruct propTypes; [congruence | reflexivity]).
  subst written. unfold Cli.writePropTypes. rewrite Hlen.
  fold o'. fold code.
  repeat split.
  - intros p -> Hrange. eexists. split; [reflexivity|].
    destruct (range p) as [b e]. now apply replaceCode_replaces.
  - intros ->. subst o'. unfold Cli.resolveCodeStyle.
    destruct cn; simpl; rewrite ?andb_true_r, ?andb_false_r; reflexivity.
  - intros -> Hstyle Hrange. rewrite Hstyle. eexists. split; [reflexivity|].
    now apply insertCode_replaces.
  - intros -> Hstyle body Hbody Hrange. rewrite Hstyle, Hbody.
    eexists. split; [reflexivity|]. now apply insertCode_replaces.
Qed.

(** The declaration of [Foo.propTypes = {};] is replaced and the semicolon
    after it is kept. *)
Lemma writePropTypes_replaces_or_inserts_witness :
  exists document',
    Cli.writePropTypes WriteExamples.range WriteExamples.build
      WriteExamples.declared WriteExamples.unconfigured
      WriteExamples.function_component (Some WriteExamples.declaration)
      [new_PropTypes (Some "a")] = Ok document'
    /\ replaces WriteExamples.declared 0 18 "X" document'.
Proof.
  assert (Hne : [new_PropTypes (Some "a")] <> []) by discriminate.
  destruct (writePropTypes_replaces_or_inserts WriteExamples.range
              WriteExamples.build WriteExamples.declared
              WriteExamples.unconfigured WriteExamples.function_component
              (Some WriteExamples.declaration) [new_PropTypes (Some "a")] Hne)
    as [Hreplace _].
  apply (Hreplace WriteExamples.declaration eq_refl).
  simpl. lia.
Defined.

Example writePropTypes_replace_example :
  Cli.writePropTypes WriteExamples.range WriteExamples.build
    WriteExamples.declared WriteExamples.unconfigured
    WriteExamples.function_component (Some WriteExamples.declaration)
    [new_PropTypes (Some "a")] = Ok "X;".
Proof. reflexivity. Qed.

(** With the code style "class" configured, the declaration of a class
    component goes inside the opening brace of its body. *)
Example writePropTypes_class_style_example :
  Cli.writePropTypes WriteExamples.range WriteExamples.build
    WriteExamples.class_document WriteExamples.class_style
    WriteExamples.class_component None [new_PropTypes (Some "a")]
  = Ok ("class A{" ++ Cli.nl ++ "  X" ++ Cli.nl ++ "}")%string.
Proof. reflexivity. Qed.

(** C6 as stated fails on a class component whose options do not set the code
    style "class" (the options of a run without configuration): the
    declaration is written after the class, [class A{}] becoming [class A{}],
    two line breaks and the declaration, and no text inserted at the body's
    start offset plus one gives that document. *)
Lemma writePropTypes_class_component_counterexample :
  Cli.writePropTypes WriteExamples.range WriteExamples.build
    WriteExamples.class_document WriteExamples.unconfigured
    WriteExamples.class_component None [new_PropTypes (Some "a")]
  = Ok ("class A{}" ++ Cli.nl ++ Cli.nl ++ "X")%string
  /\ Cli.node_body WriteExamples.class_component = Some (Other "ClassBody" [])
  /\ fst (WriteExamples.range (Other "ClassBody" [])) + 1 = 8
  /\ ~ exists text,
         replaces WriteExamples.class_document 8 8 text
           ("class A{}" ++ Cli.nl ++ Cli.nl ++ "X")%string.
Proof.
  repeat split.
  intros (text & pre & mid & post & Hd & Hpre & Hmid & Hd').
  destruct mid; [|discriminate Hmid].
  do 8 (destruct pre as [|? pre]; [discriminate Hpre|]).
  destruct pre; [|discriminate Hpre].
  unfold WriteExamples.class_document in Hd. simpl in Hd.
  injection Hd as <- <- <- <- <- <- <- <- <-.
  simpl in Hd'. injection Hd' as Hd'.
  do 3 (destruct text as [|? text]; [discriminate Hd'|]; injection Hd' as _ Hd').
  destruct text as [|? text]; [discriminate Hd'|].
  injection Hd' as _ Hd'. destruct text; discriminate Hd'.
Qed.

(** ** The component locator *)

Lemma flat_map_opt_list {B : Type} (f : node -> list B) (o : option node) :
  flat_map f (opt_list o) = match o with Some c => f c | None => [] end.
Proof. destruct o; simpl; [apply app_nil_r | reflexivity]. Qed.

Lemma flat_map_flat_map_opt {B : Type} (f : node -> list B)
    (l : list (option node)) :
  flat_map f (flat_map opt_list l)
  = flat_map (fun o => match o with Some c => f c | None => [] end) l.
Proof.
  induction l as [|o l IH]; simpl; [reflexivity|].
  now rewrite flat_map_app, flat_map_opt_list, IH.
Qed.

(** The walk is a pre-order walk: a node comes first, then the walks of its
    children, in their order. *)
Lemma preorder_children (ancestors : list node) (n : node) :
  preorder ancestors n
  = (ancestors, n) :: flat_map (preorder (n :: ancestors)) (children n).
Proof.
  destruct n; simpl; f_equal;
    do 2 (rewrite ?flat_map_app, ?flat_map_opt_list, ?flat_map_flat_map_opt;
          simpl);
    rewrite ?app_nil_r; reflexivity.
Qed.

Lemma fold_left_thrown {A B : Type} (f : B -> A -> result A) (l : list B)
    (e : error) :
  fold_left (fun acc p => s' <- acc ;; f p s') l (Throw e) = Throw e.
Proof. induction l as [|b l IH]; simpl; [reflexivity | exact IH]. Qed.

Lemma find_snoc {A : Type} (f : A -> bool) (l : list A) (a : A) :
  find f (l ++ [a])
  = match find f l with
    | Some x => Some x
    | None => if f a then Some a else None
    end.
Proof.
  induction l as [|x l IH]; simpl; [reflexivity|].
  destruct (f x); [reflexivity | exact IH].
Qed.

Section ComponentVisitor.
Variable name : string.

Lemma componentVisitor_step (p : path) (c : option node) :
  componentVisitor name p c
  = if component_visit_throws p then Throw TypeError
    else Ok (if component_match name p then Some (snd p) else c).
Proof.
  unfold componentVisitor, component_visit_throws, component_match.
  destruct p as [anc n]. simpl snd.
  destruct n; try reflexivity.
  - (* ArrowFunctionExpression *)
    destruct (parentNode (anc, ArrowFunctionExpression params n))
      as [[]|]; try reflexivity.
    destruct id0; try reflexivity.
    destruct (String.eqb name0 name); reflexivity.
  - (* FunctionDeclaration *)
    destruct id0 as [[]|]; try reflexivity.
    destruct (String.eqb name0 name); reflexivity.
  - (* ClassDeclaration *)
    destruct id0 as [i|]; [|reflexivity].
    destruct (str_eq (node_name i) (Some name)); reflexivity.
Qed.

Lemma componentVisitor_fold (l : list path) (c : option node) :
  fold_left (fun acc p => s' <- acc ;; componentVisitor name p s') l (Ok c)
  = if existsb component_visit_throws l then Throw TypeError
    else Ok (match find (component_match name) (rev l) with
             | Some p => Some (snd p)
             | None => c
             end).
Proof.
  revert c. induction l as [|p l IH]; intros c; simpl; [reflexivity|].
  rewrite componentVisitor_step.
  destruct (component_visit_throws p); simpl.
  - apply fold_left_thrown.
  - rewrite IH. destruct (existsb component_visit_throws l); [reflexivity|].
    rewrite find_snoc.
    destruct (find (component_match name) (rev l)); [reflexivity|].
    destruct (component_match name p); reflexivity.
Qed.
End ComponentVisitor.

(** C2, as the code has it by design. In a tree whose class declarations all
    have an identifier (and that is not a bare arrow function),
    [findComponentNode] returns the last node, in visiting order, that is a
    class declaration or function declaration of that name or an arrow
    function enclosed by a variable declarator of that name, and fails with
    its error when the tree has no such node. The result is a function of the
    tree and the name. *)
Theorem findComponentNode_returns_last_match :
  forall (ast : node) (name : string),
    existsb component_visit_throws (preorder [] ast) = false ->
    findComponentNode ast name
    = match find (component_match name) (rev (preorder [] ast)) with
      | Some p => Ok (snd p)
      | None =>
          Throw (Error "The selected text is not a valid React Component !")
      end.
Proof.
  intros ast name Hwalk. unfold findComponentNode, visit.
  rewrite componentVisitor_fold, Hwalk.
  destruct (find _ _); reflexivity.
Qed.

Lemma findComponentNode_returns_last_match_witness :
  findComponentNode LocatorExamples.two_foos "Foo"
  = match find (component_match "Foo")
            (rev (preorder [] LocatorExamples.two_foos)) with
    | Some p => Ok (snd p)
    | None =>
        Throw (Error "The selected text is not a valid React Component !")
    end.
Proof.
  apply (findComponentNode_returns_last_match LocatorExamples.two_foos "Foo").
  reflexivity.
Defined.

(** C2 as stated fails twice. Of two nodes that define [Foo] the locator
    returns the one it visits last, not the first in pre-order; and a function
    expression bound to a variable named [Foo] is not found at all. *)
Lemma findComponentNode_first_match_counterexample :
  (option_map snd
     (find (spec_component_match "Foo") (preorder [] LocatorExamples.two_foos))
   = Some LocatorExamples.foo_declaration
   /\ findComponentNode LocatorExamples.two_foos "Foo"
      = Ok LocatorExamples.foo_arrow
   /\ LocatorExamples.foo_arrow <> LocatorExamples.foo_declaration)
  /\ (option_map snd
        (find (spec_component_match "Foo")
           (preorder [] LocatorExamples.bound_function_expression))
      = Some LocatorExamples.foo_expression
      /\ findComponentNode LocatorExamples.bound_function_expression "Foo"
         = Throw (Error "The selected text is not a valid React Component !")).
Proof. repeat split; try reflexivity. discriminate. Qed.

(** ** The interpreter of an existing declaration *)

Lemma findUpdateSpecialPropTypes_null (typeNode : node) (name : option string) :
  call_or_member typeNode = false ->
  findUpdateSpecialPropTypes typeNode name = Ok None.
Proof. destruct typeNode; simpl; intros H; try discriminate H; reflexivity. Qed.

Lemma mapM_In {A B : Type} (f : A -> result B) (l : list A) (r : list B) (a : A) :
  mapM f l = Ok r -> In a l -> exists b, f a = Ok b /\ In b r.
Proof.
  revert r. induction l as [|x l IH]; intros r Hmap Hin; [contradiction|].
  simpl in Hmap. destruct (f x) as [y|] eqn:Hfx; [|discriminate Hmap].
  simpl in Hmap. destruct (mapM f l) as [ys|] eqn:Hl; [|discriminate Hmap].
  simpl in Hmap. injection Hmap as <-.
  destruct Hin as [<- | Hin].
  - exists y. split; [assumption | now left].
  - destruct (IH ys eq_refl Hin) as (b & Hb & Hinb).
    exists b. split; [assumption | now right].
Qed.

Lemma findPropTypesInObjectNode_unfold (properties : list node) :
  findPropTypesInObjectNode (ObjectExpression properties)
  = mapM (fun p =>
            match p with
            | Property key value =>
                findUpdateSpecialPropTypes value (node_name key)
            | _ => Throw TypeError
            end) properties.
Proof. reflexivity. Qed.

(** An entry whose value is neither a call nor a member expression leaves a
    null in the list [findPropTypesInObjectNode] returns. *)
Lemma findPropTypesInObjectNode_null_kept
    (properties : list node) (l : list (option PropTypes)) (key value : node) :
  findPropTypesInObjectNode (ObjectExpression properties) = Ok l ->
  In (Property key value) properties ->
  call_or_member value = false ->
  In None l.
Proof.
  rewrite findPropTypesInObjectNode_unfold. intros Hmap Hin Hvalue.
  destruct (mapM_In _ _ _ _ Hmap Hin) as (b & Hb & Hinb).
  rewrite (findUpdateSpecialPropTypes_null _ _ Hvalue) in Hb.
  injection Hb as <-. exact Hinb.
Qed.

(** C3 on the code. The entry [a: 5] is neither a call nor a member
    expression: its null is an element of the list the interpreter returns,
    and so is the null of [c: 5] among the children of the shape [b]. Only
    among the elements of the array of [d] is the null filtered out. *)
Theorem findPropTypesInPropTypeNode_returns_null :
  findPropTypesInPropTypeNode (Some InterpreterExamples.declaration)
  = Ok [None;
        Some (set_childTypes [None]
                (set_type (Some "shape") (new_PropTypes (Some "b"))));
        Some (set_childTypes
                [Some (set_type (Some "string") (new_PropTypes None))]
                (set_type (Some "oneOfType") (new_PropTypes (Some "d"))))].
Proof. reflexivity. Qed.

(** ** Defaults in a destructuring pattern *)

(** C7, as the code has it. An entry [key = expr] of a destructuring pattern
    whose left side is an identifier yields the record that
    [updatePropTypeByNode] infers from [expr] for a new record named after the
    key, with the left identifier as binding id; its default value is the
    rendered expression when the inferred type is not any, and is not set by
    this function when the inferred type is any. *)
Theorem findPropTypesInObjectPattern_default :
  forall (updatePropTypeByNode : node -> PropTypes -> PropTypes)
         (prettyPrint : node -> string)
         (before after : list node) (key : node) (lname : string) (rhs : node),
    let records := findPropTypesInObjectPattern updatePropTypeByNode prettyPrint in
    let inferred := updatePropTypeByNode rhs (new_PropTypes (node_name key)) in
    records (ObjectPattern
               (before
                ++ Property key (AssignmentPattern (Identifier lname) rhs)
                :: after))
    = records (ObjectPattern before)
      ++ set_id (Some lname)
           (if str_eq (type inferred) (Some "any") then inferred
            else set_defaultValue (Some (prettyPrint rhs)) inferred)
      :: records (ObjectPattern after).
Proof.
  intros update print before after key lname rhs. simpl.
  rewrite flat_map_app. simpl.
  destruct (str_eq (type (update rhs (new_PropTypes (node_name key))))
              (Some "any")); reflexivity.
Qed.

(** For [{ a, b = 1 }] the record of [b] has the default value [1] and the
    type number. *)
Example findPropTypesInObjectPattern_a_b_1 :
  findPropTypesInObjectPattern updatePropTypeByNode_model prettyPrint_model
    PatternExamples.a_b_1
  = [set_id (Some "a") (new_PropTypes (Some "a"));
     set_id (Some "b")
       (set_defaultValue (Some "1")
          (set_type (Some "number") (new_PropTypes (Some "b"))))].
Proof. reflexivity. Qed.

(** C7 as stated fails for a default whose type is inferred as any: for
    [{ a = fallback }] the record of [a] has no default value, though the
    expression renders as [fallback]. *)
Lemma findPropTypesInObjectPattern_any_default_counterexample :
  prettyPrint_model (Identifier "fallback") = "fallback"
  /\ exists record,
       findPropTypesInObjectPattern updatePropTypeByNode_model
         prettyPrint_model PatternExamples.a_fallback = [record]
       /\ name record = Some "a"
       /\ type record = Some "any"
       /\ defaultValue record = None
       /\ defaultValue record <> Some "fallback".
Proof.
  split; [reflexivity|]. eexists. split; [reflexivity|].
  repeat split. discriminate.
Qed.

(** ** No records *)

Lemma mergeResults_nil : mergeResults [[]; []; []] = [].
Proof. reflexivity. Qed.

(** C4. When the three strategies yield no record for a component (its usage
    inference, its defaults inference and the interpretation of its
    declaration all return the empty list), [findPropTypes] resolves to the
    empty list and [generatePropTypes] fails with its error "Not find any
    props": nothing is rendered or written. *)
Theorem generatePropTypes_no_props :
  forall (updatePropTypeByNode : node -> PropTypes -> PropTypes)
         (prettyPrint : node -> string) (range : node -> nat * nat)
         (buildPropTypes : list PropTypes -> Cli.options -> string)
         (fuel : nat) (document : string) (o : Cli.options)
         (componentNode : node) (propTypesNode defaultPropsNode : option node),
    findPropTypesByPropsIdentity updatePropTypeByNode prettyPrint fuel
      componentNode = Some [] ->
    findPropTypesInDefaultPropsNode updatePropTypeByNode prettyPrint
      defaultPropsNode = [] ->
    findPropTypesInPropTypeNode propTypesNode = Ok [] ->
    Cli.generatePropTypes updatePropTypeByNode prettyPrint range buildPropTypes
      fuel document o componentNode propTypesNode defaultPropsNode
    = Some (Throw (Error "Not find any props")).
Proof.
  intros update print range build fuel document o cn pn dn Husage Hdefaults
    Hexplicit.
  unfold Cli.generatePropTypes, findPropTypes.
  rewrite Husage, Hdefaults, Hexplicit. reflexivity.
Qed.

(** [function Foo() {}], without declaration and without default props. *)
Lemma generatePropTypes_no_props_witness :
  Cli.generatePropTypes updatePropTypeByNode_model prettyPrint_model
    WriteExamples.range WriteExamples.build 1 "function Foo() {}"
    WriteExamples.unconfigured WriteExamples.function_component None None
  = Some (Throw (Error "Not find any props")).
Proof.
  apply (generatePropTypes_no_props updatePropTypeByNode_model
           prettyPrint_model WriteExamples.range WriteExamples.build 1
           "function Foo() {}" WriteExamples.unconfigured
           WriteExamples.function_component None None);
    reflexivity.
Defined.

(** ** Names *)

Lemma str_eq_true (a b : option string) : str_eq a b = true <-> a = b.
Proof.
  destruct a as [x|], b as [y|]; simpl; split; intros H;
    try discriminate H; try reflexivity.
  - apply String.eqb_eq in H. now subst.
  - injection H as ->. apply String.eqb_refl.
Qed.

Lemma str_eq_refl (a : option string) : str_eq a a = true.
Proof. now apply str_eq_true. Qed.

Lemma str_eq_false (a b : option string) : str_eq a b = false <-> a <> b.
Proof.
  split.
  - intros H Heq. apply str_eq_true in Heq. congruence.
  - intros H. destruct (str_eq a b) eqn:E; [|reflexivity].
    apply str_eq_true in E. contradiction.
Qed.


(** ** The sort *)



(** ** The order of the final list *)












Example mergeResults_sorts :
  mergeResults [[Some (OrderExamples.typed "b" "func")];
                [Some (OrderExamples.typed "a" "string")]]
  = [OrderExamples.typed "a" "string"; OrderExamples.typed "b" "func"].
Proof. reflexivity. Qed.


(** ** The completion pass *)




Lemma update_first_absent (pred : PropTypes -> bool)
    (f : PropTypes -> PropTypes) (l : list PropTypes) :
  existsb pred l = false -> update_first pred f l = l.
Proof.
  induction l as [|x l IH]; simpl; [reflexivity|].
  destruct (pred x); simpl; [discriminate|].
  intros H. now rewrite IH.
Qed.





(** C9 on the code. The record of [a] has the type number on entry and is no
    completion candidate; it shares its binding id [x] with the candidate
    [b]. The call [x()] looks the record up by binding id alone and finds
    [a] first: [a] becomes a func and [b] stays any. *)
Theorem findAndCompletePropTypes_completes_other_type :
  map completion_candidate CompletionExamples.records = [false; true]
  /\ findAndCompletePropTypes 2 (Some CompletionExamples.block)
       CompletionExamples.records
     = Some [set_id (Some "x")
               (set_defaultValue (Some "1")
                  (set_type (Some "func") (new_PropTypes (Some "a"))));
             set_id (Some "x") (new_PropTypes (Some "b"))]
  /\ findPropTypesByPropsIdentity updatePropTypeByNode_model prettyPrint_model
       3 CompletionExamples.component
     = Some [set_id (Some "x")
               (set_defaultValue (Some "1")
                  (set_type (Some "func") (new_PropTypes (Some "a"))));
             set_id (Some "x") (new_PropTypes (Some "b"))].
Proof. repeat split; reflexivity. Qed.

(** A call makes the binding's record a func and member accesses make it a
    shape: [{ onClick(user.name); user.age; }] for the records of
    [{ user, onClick }]. *)
Example findAndCompletePropTypes_example :
  findAndCompletePropTypes 2
    (Some (BlockStatement
             [Other "ExpressionStatement"
                [CallExpression (Identifier "onClick")
                   [MemberExpression (Identifier "user") (Identifier "name")]];
              Other "ExpressionStatement"
                [MemberExpression (Identifier "user") (Identifier "age")]]))
    [set_id (Some "user") (new_PropTypes (Some "user"));
     set_id (Some "onClick") (new_PropTypes (Some "onClick"))]
  = Some [set_id (Some "user")
            (set_childTypes
               [Some (new_PropTypes (Some "name"));
                Some (new_PropTypes (Some "age"))]
               (set_type (Some "shape") (new_PropTypes (Some "user"))));
          set_id (Some "onClick")
            (set_type (Some "func") (new_PropTypes (Some "onClick")))].
Proof. reflexivity. Qed.

(** * Further properties *)

(** ** Offsets and text *)

Lemma string_app_assoc (a b c : string) :
  ((a ++ b) ++ c)%string = (a ++ b ++ c)%string.
Proof. induction a as [|x a IH]; simpl; [reflexivity | now rewrite IH]. Qed.

Lemma string_app_nil_r (a : string) : (a ++ "")%string = a.
Proof. induction a as [|x a IH]; simpl; [reflexivity | now rewrite IH]. Qed.

Lemma substring_length (s : string) (n m : nat) :
  String.length (substring n m s) = Nat.min m (String.length s - n).
Proof.
  revert n m. induction s as [|c s IH]; intros [|n] [|m]; simpl;
    try reflexivity.
  - now rewrite IH, Nat.sub_0_r.
  - apply IH.
  - apply IH.
Qed.

Lemma substring_prefix (pre r : string) (k : nat) :
  substring 0 (String.length pre + k) (pre ++ r)
  = (pre ++ substring 0 k r)%string.
Proof. induction pre as [|c pre IH]; simpl; [reflexivity | now rewrite IH]. Qed.

Lemma substring_0_0 (s : string) : substring 0 0 s = "".
Proof. destruct s; reflexivity. Qed.

Lemma substring_past (s : string) (n m : nat) :
  String.length s <= n -> substring n m s = "".
Proof.
  revert n. induction s as [|c s IH]; intros [|n] H; simpl in *;
    try reflexivity; try lia.
  - destruct m; reflexivity.
  - apply IH. lia.
Qed.

(** X2. Whatever the range, the document [replaceCode] writes has the length
    of the text before the range's start, the code and the text after the
    range's end: offsets past the end of the document are clipped, and with
    an end before the start the text between the two is kept twice. *)
Theorem replaceCode_length :
  forall (document : string) (b e : nat) (code : string),
    String.length (Cli.replaceCode document (b, e) code)
    = Nat.min b (String.length document) + String.length code
      + (String.length document - e).
Proof.
  intros document b e code. unfold Cli.replaceCode, Cli.slice.
  simpl fst. simpl snd.
  rewrite !string_length_append, !substring_length. lia.
Qed.

Lemma string_app_inj (a a' b b' : string) :
  (a ++ b)%string = (a' ++ b')%string -> String.length a = String.length a' ->
  a = a' /\ b = b'.
Proof.
  revert a'. induction a as [|x a IH]; intros [|x' a'] Happ Hlen;
    simpl in *; try discriminate Hlen.
  - now split.
  - injection Happ as -> Happ. injection Hlen as Hlen.
    destruct (IH a' Happ Hlen) as [-> ->]. now split.
Qed.

Lemma insertCode_split (document : string) (position : nat) (code : string) :
  position <= String.length document ->
  exists pre post : string,
    document = (pre ++ post)%string /\ String.length pre = position
    /\ Cli.insertCode document position code = (pre ++ code ++ post)%string.
Proof.
  intros H.
  destruct (insertCode_replaces document position code H)
    as (pre & mid & post & Hd & Hpre & Hmid & Hres).
  rewrite Nat.sub_diag in Hmid. destruct mid; [|discriminate Hmid].
  exists pre, post. now repeat split.
Qed.

(** X3. Inserting a text and then replacing the range it occupies by the
    empty text gives the document back, for every offset inside the
    document. *)
Theorem insertCode_replaceCode_round_trip :
  forall (document : string) (position : nat) (code : string),
    position <= String.length document ->
    Cli.replaceCode (Cli.insertCode document position code)
      (position, position + String.length code) ""
    = document.
Proof.
  intros document position code H.
  destruct (insertCode_split document position code H)
    as (pre & post & Hd & Hpre & ->).
  unfold Cli.replaceCode, Cli.slice. simpl fst. simpl snd.
  rewrite Nat.sub_0_r, <- Hpre.
  replace (String.length pre) with (String.length pre + 0) at 1 by lia.
  rewrite substring_prefix, substring_0_0, string_app_nil_r. simpl append.
  rewrite substring_skip.
  replace (String.length code) with (String.length code + 0) at 1 by lia.
  rewrite substring_skip, !string_length_append.
  replace (String.length pre + (String.length code + String.length post)
           - (String.length pre + String.length code))
    with (String.length post) by lia.
  now rewrite substring_all, Hd.
Qed.

Lemma insertCode_replaceCode_round_trip_witness :
  Cli.replaceCode (Cli.insertCode "class A{}" 8 "static x;")
    (8, 8 + String.length "static x;") ""
  = "class A{}".
Proof.
  apply (insertCode_replaceCode_round_trip "class A{}" 8 "static x;").
  simpl. lia.
Defined.

(** The import line is inserted at an offset of the document as it was parsed,
    after the declaration has been written: when that offset is not after
    the start of the range that was replaced, both texts end where the parsed
    offsets point. *)
Lemma insertCode_after_replaceCode (document : string) (s b e : nat)
    (code imp : string) :
  s <= b -> b <= e -> e <= String.length document ->
  exists pre mid old post : string,
    document = (pre ++ mid ++ old ++ post)%string
    /\ String.length pre = s /\ String.length mid = b - s
    /\ String.length old = e - b
    /\ Cli.insertCode (Cli.replaceCode document (b, e) code) s imp
       = (pre ++ imp ++ mid ++ code ++ post)%string.
Proof.
  intros Hsb Hbe He.
  destruct (replaceCode_replaces document b e code (conj Hbe He))
    as (p1 & old & post & Hd & Hp1 & Hold & Hres).
  destruct (substring_split p1 s) as (pre & mid & Hp & Hpre & _ & _); [lia|].
  assert (Hmid : String.length mid = b - s).
  { rewrite Hp, string_length_append in Hp1. lia. }
  exists pre, mid, old, post. repeat split; try assumption.
  - now rewrite Hd, Hp, string_app_assoc.
  - rewrite Hres, Hp, string_app_assoc.
    destruct (insertCode_split (pre ++ mid ++ code ++ post) s imp)
      as (pre' & post' & Hsplit & Hpre' & ->).
    { rewrite string_length_append. lia. }
    destruct (string_app_inj _ _ _ _ Hsplit) as [<- <-]; [lia|].
    reflexivity.
Qed.

(** X4. When [generatePropTypes] replaces an existing declaration and then
    inserts the import line at the start of the first statement, each text
    lands where the offsets of the parsed document point, though the import
    is inserted into the document the first write has already changed: the
    first statement does not start after the declaration, so the text before
    it is the parsed one. *)
Theorem writeAndImport_declaration :
  forall (range : node -> nat * nat) (first : node)
         (buildImportCode : Cli.options -> string)
         (buildPropTypes : list PropTypes -> Cli.options -> string)
         (document : string) (o : Cli.options) (componentNode p : node)
         (propTypes : list PropTypes),
    propTypes <> [] ->
    Cli.autoImport o <> Some "disable" ->
    let o' := Cli.resolveCodeStyle o componentNode (Some p) in
    buildImportCode o' <> "" ->
    fst (range first) <= fst (range p) ->
    fst (range p) <= snd (range p) ->
    snd (range p) <= String.length document ->
    exists pre mid old post : string,
      document = (pre ++ mid ++ old ++ post)%string
      /\ String.length pre = fst (range first)
      /\ String.length mid = fst (range p) - fst (range first)
      /\ String.length old = snd (range p) - fst (range p)
      /\ CliImport.writeAndImport range None None (Some first) buildImportCode
           buildPropTypes document o componentNode (Some p) propTypes
         = Ok (pre ++ (buildImportCode o' ++ Cli.nl) ++ mid
               ++ buildPropTypes propTypes o' ++ post)%string.
Proof.
  intros range first buildImport build document o cn p propTypes Hne Hauto o'
    Himp Hsb Hbe He.
  destruct (insertCode_after_replaceCode document (fst (range first))
              (fst (range p)) (snd (range p)) (build propTypes o')
              (buildImport o' ++ Cli.nl)%string Hsb Hbe He)
    as (pre & mid & old & post & Hd & Hpre & Hmid & Hold & Hres).
  exists pre, mid, old, post. repeat split; try assumption.
  unfold CliImport.writeAndImport, Cli.writePropTypes.
  assert (Hlen : Nat.eqb (List.length propTypes) 0 = false)
    by (destruct propTypes; [congruence | reflexivity]).
  rewrite Hlen. fold o'. cbn [bind]. unfold CliImport.insertImport.
  assert (Hdis : str_eq (Cli.autoImport o') (Some "disable") = false).
  { apply str_eq_false. subst o'. unfold Cli.resolveCodeStyle.
    destruct p; exact Hauto. }
  rewrite Hdis. cbn [negb].
  assert (Hnonempty : String.eqb (buildImport o') "" = false)
    by now apply String.eqb_neq.
  rewrite Hnonempty. cbn [negb]. f_equal.
  rewrite <- Hres. destruct (range p); reflexivity.
Qed.

Lemma writeAndImport_declaration_witness :
  exists pre mid old post : string,
    WriteExamples.declared = (pre ++ mid ++ old ++ post)%string
    /\ String.length pre = 0
    /\ String.length mid = 0
    /\ String.length old = 18
    /\ CliImport.writeAndImport ImportExamples.range None None
         (Some ImportExamples.statement) ImportExamples.buildImportCode
         WriteExamples.build WriteExamples.declared WriteExamples.unconfigured
         WriteExamples.function_component (Some WriteExamples.declaration)
         [new_PropTypes (Some "a")]
       = Ok (pre ++ ("import PropTypes from 'prop-types';" ++ Cli.nl) ++ mid
             ++ "X" ++ post)%string.
Proof.
  apply (writeAndImport_declaration ImportExamples.range
           ImportExamples.statement ImportExamples.buildImportCode
           WriteExamples.build WriteExamples.declared
           WriteExamples.unconfigured WriteExamples.function_component
           WriteExamples.declaration [new_PropTypes (Some "a")]);
    simpl; try discriminate; lia.
Defined.

(** ** The records of an existing declaration *)

Lemma findUpdateSpecialPropTypes_call (callee : node) (arguments : list node)
    (name : option string) :
  findUpdateSpecialPropTypes (CallExpression callee arguments) name
  = match arguments with
    | calleeParams :: _ =>
        specialPropTypes (new_PropTypes name) callee calleeParams
    | [] => Ok (Some (new_PropTypes name))
    end.
Proof. reflexivity. Qed.

Lemma findUpdateSpecialPropTypes_member (object property : node)
    (name : option string) :
  findUpdateSpecialPropTypes (MemberExpression object property) name
  = let props :=
      required_props property
        (object_props object property (new_PropTypes name)) in
    match object with
    | CallExpression callee (calleeParams :: _) =>
        specialPropTypes props callee calleeParams
    | _ => Ok (Some props)
    end.
Proof. destruct object; reflexivity. Qed.

(** Case analysis on a string that is matched against a literal, character
    by character and bit by bit. *)
Ltac literal_char s :=
  let c := fresh "c" in
  destruct s as [|c s];
  [try reflexivity
  |let b0 := fresh in let b1 := fresh in let b2 := fresh in let b3 := fresh in
   let b4 := fresh in let b5 := fresh in let b6 := fresh in let b7 := fresh in
   destruct c as [b0 b1 b2 b3 b4 b5 b6 b7];
   destruct b0; try reflexivity; destruct b1; try reflexivity;
   destruct b2; try reflexivity; destruct b3; try reflexivity;
   destruct b4; try reflexivity; destruct b5; try reflexivity;
   destruct b6; try reflexivity; destruct b7; try reflexivity].

Ltac literal_string s := do 12 (try (literal_char s)).

Lemma required_props_cases (property : node) (props : PropTypes) :
  required_props property props
  = if required_member (MemberExpression property property)
    then set_isRequired true props else props.
Proof.
  unfold required_props, required_member.
  destruct property as [s| | | | | | | | | | | | | | | | | | | | |];
    try reflexivity.
  literal_string s.
Qed.

Lemma required_member_property (object object' property : node) :
  required_member (MemberExpression object property)
  = required_member (MemberExpression object' property).
Proof. reflexivity. Qed.

Lemma callee_props_cases (callee : node) (props : PropTypes) :
  callee_props callee props = props
  \/ exists t, callee_props callee props = set_type t props.
Proof.
  unfold callee_props. destruct callee; auto.
  destruct callee2; auto.
  match goal with
  | |- context [if ?c then _ else _] => destruct c
  end; eauto.
Qed.

Lemma object_props_cases (object property : node) (props : PropTypes) :
  object_props object property props = props
  \/ exists t, object_props object property props = set_type t props.
Proof.
  unfold object_props. destruct object; auto.
  - destruct (negb _); eauto.
  - destruct (negb _); eauto.
Qed.

Lemma declared_record_set_type (n : option string) (req : bool)
    (t : option string) (q : PropTypes) :
  declared_record n req q /\ ast q = None ->
  declared_record n req (set_type t q) /\ ast (set_type t q) = None.
Proof.
  unfold declared_record. simpl. intros [(H1 & H2 & H3 & H4 & _) H5].
  repeat split; auto.
Qed.

Lemma specialPropTypes_record (n : option string) (req : bool)
    (q : PropTypes) (callee calleeParams : node) (p : PropTypes) :
  declared_record n req q -> ast q = None ->
  specialPropTypes q callee calleeParams = Ok (Some p) ->
  declared_record n req p.
Proof.
  intros Hq Hast. unfold specialPropTypes.
  assert (Hc : declared_record n req (callee_props callee q)
               /\ ast (callee_props callee q) = None).
  { destruct (callee_props_cases callee q) as [-> | [t ->]];
      [now split | now apply declared_record_set_type]. }
  destruct Hc as [(H1 & H2 & H3 & H4 & _) H5].
  set (props := callee_props callee q) in *.
  unfold declared_record.
  destruct calleeParams;
    try (match goal with
         | |- Ok (Some _) = _ -> _ => intros [= <-]; repeat split; auto
         end).
  - (* MemberExpression *)
    destruct (findUpdateSpecialPropTypes _ None) as [[c|]|]; simpl;
      intros [= <-]; repeat split; auto.
  - (* ObjectExpression *)
    destruct (findPropTypesInObjectNode _) as [c|]; simpl;
      intros [= <-]; repeat split; auto.
  - (* ArrayExpression *)
    destruct (str_eq (type props) (Some "oneOf")) eqn:E.
    + intros [= <-]. apply str_eq_true in E. repeat split; auto.
    + destruct (mapM _ elements) as [c|]; simpl; intros [= <-];
        repeat split; auto.
Qed.

Lemma findUpdateSpecialPropTypes_declared (typeNode : node)
    (n : option string) (p : PropTypes) :
  findUpdateSpecialPropTypes typeNode n = Ok (Some p) ->
  declared_record n (required_member typeNode) p.
Proof.
  assert (Hnew : declared_record n false (new_PropTypes n)
                 /\ ast (new_PropTypes n) = None)
    by (unfold declared_record; simpl; auto 10).
  destruct typeNode; try discriminate.
  - (* MemberExpression *)
    rewrite findUpdateSpecialPropTypes_member.
    set (props0 := object_props typeNode1 typeNode2 (new_PropTypes n)).
    assert (H0 : declared_record n false props0 /\ ast props0 = None).
    { subst props0.
      destruct (object_props_cases typeNode1 typeNode2 (new_PropTypes n))
        as [-> | [t ->]];
        [assumption | now apply declared_record_set_type]. }
    cbv zeta. rewrite required_props_cases.
    rewrite (required_member_property typeNode2 typeNode1 typeNode2).
    set (req := required_member (MemberExpression typeNode1 typeNode2)).
    assert (H1 : declared_record n req
                   (if req then set_isRequired true props0 else props0)
                 /\ ast (if req then set_isRequired true props0 else props0)
                    = None).
    { destruct H0 as [(G1 & G2 & G3 & G4 & _) G5].
      unfold declared_record. destruct req; simpl; auto 10. }
    destruct H1 as [H1 H2].
    destruct typeNode1; try (intros [= <-]; exact H1).
    destruct arguments as [|calleeParams ?]; [intros [= <-]; exact H1|].
    now apply specialPropTypes_record.
  - (* CallExpression *)
    rewrite findUpdateSpecialPropTypes_call.
    destruct arguments as [|calleeParams ?].
    + intros [= <-]. apply Hnew.
    + apply specialPropTypes_record; apply Hnew.
Qed.

(** X5. A record that [findUpdateSpecialPropTypes] returns has the name it
    was asked for, is required exactly when the expression is a member access
    [.isRequired], has no default value and no binding id, and keeps a
    literal set only with the type oneOf. *)
Theorem findUpdateSpecialPropTypes_record :
  forall (typeNode : node) (n : option string) (p : PropTypes),
    findUpdateSpecialPropTypes typeNode n = Ok (Some p) ->
    name p = n /\ isRequired p = required_member typeNode
    /\ defaultValue p = None /\ id p = None
    /\ (ast p = None \/ type p = Some "oneOf").
Proof.
  intros typeNode n p H.
  exact (findUpdateSpecialPropTypes_declared typeNode n p H).
Qed.

Lemma findUpdateSpecialPropTypes_record_witness :
  name (set_isRequired true (set_type (Some "string") (new_PropTypes (Some "a"))))
  = Some "a"
  /\ isRequired
       (set_isRequired true (set_type (Some "string") (new_PropTypes (Some "a"))))
     = required_member RecordExamples.required_string
  /\ defaultValue
       (set_isRequired true (set_type (Some "string") (new_PropTypes (Some "a"))))
     = None
  /\ id (set_isRequired true (set_type (Some "string") (new_PropTypes (Some "a"))))
     = None
  /\ (ast (set_isRequired true
             (set_type (Some "string") (new_PropTypes (Some "a")))) = None
      \/ type (set_isRequired true
                 (set_type (Some "string") (new_PropTypes (Some "a"))))
         = Some "oneOf").
Proof.
  apply (findUpdateSpecialPropTypes_record RecordExamples.required_string
           (Some "a")).
  reflexivity.
Defined.

Lemma mapM_Forall2 {A B : Type} (f : A -> result B) (l : list A) (r : list B) :
  mapM f l = Ok r -> Forall2 (fun a b => f a = Ok b) l r.
Proof.
  revert r. induction l as [|x l IH]; intros r Hmap; simpl in Hmap.
  - injection Hmap as <-. constructor.
  - destruct (f x) as [y|] eqn:Hfx; [|discriminate Hmap].
    simpl in Hmap. destruct (mapM f l) as [ys|]; [|discriminate Hmap].
    simpl in Hmap. injection Hmap as <-. constructor; [assumption|].
    now apply IH.
Qed.

Lemma specialPropTypes_not_null (q : PropTypes) (callee calleeParams : node) :
  specialPropTypes q callee calleeParams <> Ok None.
Proof.
  unfold specialPropTypes.
  destruct calleeParams;
    try (match goal with
         | |- Ok (Some _) <> _ => discriminate
         end).
  - destruct (findUpdateSpecialPropTypes _ None) as [[c|]|]; discriminate.
  - destruct (findPropTypesInObjectNode _) as [c|]; discriminate.
  - destruct (str_eq _ _); [discriminate|].
    destruct (mapM _ elements) as [c|]; discriminate.
Qed.

(** A call or a member expression is never interpreted as null. *)
Lemma findUpdateSpecialPropTypes_not_null (typeNode : node)
    (n : option string) :
  call_or_member typeNode = true ->
  findUpdateSpecialPropTypes typeNode n <> Ok None.
Proof.
  destruct typeNode; try discriminate; intros _.
  - rewrite findUpdateSpecialPropTypes_member. cbv zeta.
    destruct typeNode1; try discriminate.
    destruct arguments; [discriminate | apply specialPropTypes_not_null].
  - rewrite findUpdateSpecialPropTypes_call.
    destruct arguments; [discriminate | apply specialPropTypes_not_null].
Qed.

(** X6. When [findPropTypesInObjectNode] returns, its list has one entry
    for every property of the object literal, in their order: the entry is
    null exactly when the property's value is neither a call nor a member
    expression, and otherwise a record named after the property's key that is
    required exactly when the value is a member access [.isRequired]. *)
Theorem findPropTypesInObjectNode_entries :
  forall (properties : list node) (l : list (option PropTypes)),
    findPropTypesInObjectNode (ObjectExpression properties) = Ok l ->
    Forall2
      (fun property entry =>
         exists key value,
           property = Property key value
           /\ match entry with
              | None => call_or_member value = false
              | Some r =>
                  call_or_member value = true
                  /\ name r = node_name key
                  /\ isRequired r = required_member value
              end)
      properties l.
Proof.
  intros properties l H. rewrite findPropTypesInObjectNode_unfold in H.
  apply mapM_Forall2 in H.
  eapply Forall2_impl; [|exact H].
  intros property entry Hentry.
  destruct property; try discriminate Hentry.
  exists property1, property2. split; [reflexivity|].
  destruct (call_or_member property2) eqn:Hkind.
  - destruct entry as [r|].
    + destruct (findUpdateSpecialPropTypes_declared _ _ _ Hentry)
        as (Hname & Hreq & _).
      now repeat split.
    + exfalso.
      exact (findUpdateSpecialPropTypes_not_null _ (node_name property1)
               Hkind Hentry).
  - rewrite (findUpdateSpecialPropTypes_null _ _ Hkind) in Hentry.
    now injection Hentry as <-.
Qed.

Lemma findPropTypesInObjectNode_entries_witness :
  Forall2
    (fun property entry =>
       exists key value,
         property = Property key value
         /\ match entry with
            | None => call_or_member value = false
            | Some r =>
                call_or_member value = true
                /\ name r = node_name key
                /\ isRequired r = required_member value
            end)
    [Property (Identifier "a") (Literal (LNumber "5"));
     Property (Identifier "b") RecordExamples.required_string]
    [None;
     Some (set_isRequired true
             (set_type (Some "string") (new_PropTypes (Some "b"))))].
Proof.
  apply (findPropTypesInObjectNode_entries
           [Property (Identifier "a") (Literal (LNumber "5"));
            Property (Identifier "b") RecordExamples.required_string]).
  reflexivity.
Defined.

(** ** Induction on trees *)

Section NodeInduction.
Variable P : node -> Prop.
Hypothesis step : forall n, Forall P (children n) -> P n.

(** A property that holds of a node whenever it holds of its children holds
    of every node. *)
Fixpoint node_children_ind (n : node) : P n.
Proof.
  apply step.
  destruct n; simpl;
    repeat match goal with
    | |- Forall _ [] => apply Forall_nil
    | |- Forall _ (_ :: _) => apply Forall_cons; [apply node_children_ind|]
    | |- Forall _ (_ ++ _) => apply Forall_app; split
    | |- Forall _ (opt_list ?o) =>
        destruct o; simpl;
        [apply Forall_cons; [apply node_children_ind | apply Forall_nil]
        |apply Forall_nil]
    | |- Forall _ (flat_map opt_list ?l) =>
        induction l as [|[?|] ? ?]; simpl;
        [apply Forall_nil
        |apply Forall_cons; [apply node_children_ind | assumption]
        |assumption]
    | |- Forall _ ?l =>
        is_var l; induction l as [|? ? ?];
        [apply Forall_nil
        |apply Forall_cons; [apply node_children_ind | assumption]]
    end.
Qed.
End NodeInduction.

Lemma bind_Throw {A B : Type} (r : result A) (k : A -> result B) (e : error) :
  bind r k = Throw e ->
  r = Throw e \/ exists a, r = Ok a /\ k a = Throw e.
Proof.
  destruct r as [a|e']; simpl; intros H; [right; eauto | left; congruence].
Qed.

Lemma mapM_Throw {A B : Type} (f : A -> result B) (l : list A) (e : error) :
  mapM f l = Throw e -> exists x, In x l /\ f x = Throw e.
Proof.
  induction l as [|x l IH]; simpl; [discriminate|].
  intros H. apply bind_Throw in H as [H | (y & Hy & H)].
  - exists x. auto.
  - apply bind_Throw in H as [H | (ys & Hys & H)]; [|discriminate].
    destruct (IH H) as (z & Hz & Hfz). exists z. auto.
Qed.

Lemma mapM_throws {A B : Type} (f : A -> result B) (l : list A) (x : A)
    (e : error) :
  (forall y e', In y l -> f y = Throw e' -> e' = e) ->
  In x l -> f x = Throw e -> mapM f l = Throw e.
Proof.
  intros Hall Hx Hfx.
  destruct (mapM f l) as [ys|e'] eqn:Hm.
  - exfalso. revert ys Hm. induction l as [|y l IH]; [destruct Hx|].
    simpl. intros ys.
    destruct (f y) as [b|] eqn:Hy; simpl; [|discriminate].
    destruct (mapM f l) as [bs|] eqn:Hl; simpl; [|discriminate].
    intros _. destruct Hx as [-> | Hx]; [congruence|].
    apply (IH (fun z e' Hz => Hall z e' (or_intror Hz)) Hx bs eq_refl).
  - apply mapM_Throw in Hm as (y & Hy & Hfy).
    now rewrite (Hall y e' Hy Hfy).
Qed.

(** ** The failures of the interpreter *)

Lemma inside_trans (n c d : node) : inside n c -> inside c d -> inside n d.
Proof.
  induction 1 as [|n c' c Hc _ IH]; [trivial|].
  intros H. apply (inside_child n c'); auto.
Qed.

Lemma specialPropTypes_throws (props : PropTypes) (callee calleeParams : node)
    (e : error) :
  (forall d, inside calleeParams d -> throws_TypeError_only d) ->
  specialPropTypes props callee calleeParams = Throw e -> e = TypeError.
Proof.
  intros Hin. unfold specialPropTypes.
  destruct calleeParams; try discriminate.
  - (* MemberExpression *)
    intros H. apply bind_Throw in H as [H | (c & _ & H)].
    + exact (proj1 (Hin _ (inside_here _)) _ _ H).
    + destruct c; discriminate.
  - (* ObjectExpression *)
    intros H. apply bind_Throw in H as [H | (c & _ & H)]; [|discriminate].
    exact (proj2 (Hin _ (inside_here _)) _ H).
  - (* ArrayExpression *)
    destruct (str_eq _ _); [discriminate|].
    intros H. apply bind_Throw in H as [H | (c & _ & H)]; [|discriminate].
    apply mapM_Throw in H as ([i|] & Hi & H); [|congruence].
    refine (proj1 (Hin i _) _ _ H).
    apply (inside_child _ i); [|apply inside_here].
    simpl. apply in_flat_map. exists (Some i). simpl. auto.
Qed.

Lemma throws_TypeError_only_inside (n : node) :
  forall d, inside n d -> throws_TypeError_only d.
Proof.
  induction n as [n IH] using node_children_ind.
  assert (Hsub : forall c d, In c (children n) -> inside c d ->
                             throws_TypeError_only d).
  { intros c d Hc. rewrite Forall_forall in IH. exact (IH c Hc d). }
  assert (Hn : throws_TypeError_only n).
  { split.
    - intros nm e. destruct n; try discriminate.
      + (* MemberExpression *)
        rewrite findUpdateSpecialPropTypes_member. cbv zeta.
        destruct n1 as [| | | |callee [|calleeParams ?]| | | | | | | | | | | | | | | | |];
          try discriminate.
        apply specialPropTypes_throws.
        intros d Hd. apply (Hsub (CallExpression callee (calleeParams :: l)));
          [simpl; auto|].
        apply (inside_child _ calleeParams); [simpl; auto | exact Hd].
      + (* CallExpression *)
        rewrite findUpdateSpecialPropTypes_call.
        destruct arguments as [|calleeParams ?]; [discriminate|].
        apply specialPropTypes_throws.
        intros d Hd. apply (Hsub calleeParams); [simpl; auto | exact Hd].
    - intros e. destruct n; try discriminate.
      rewrite findPropTypesInObjectNode_unfold. intros H.
      apply mapM_Throw in H as (p & Hp & H).
      destruct p; try congruence.
      refine (proj1 (Hsub (Property p1 p2) p2 Hp _) _ _ H).
      apply (inside_child _ p2); [simpl; auto | apply inside_here]. }
  intros d Hd. inversion Hd as [|? c ? Hc Hcd]; subst; [exact Hn|].
  exact (Hsub c d Hc Hcd).
Qed.

Lemma findPropTypesInObjectNode_throws (objectNode : node) (e : error) :
  findPropTypesInObjectNode objectNode = Throw e -> e = TypeError.
Proof.
  exact (proj2 (throws_TypeError_only_inside objectNode objectNode
                  (inside_here objectNode)) e).
Qed.

Lemma findPropTypesInObjectNode_not_property (properties : list node)
    (x : node) :
  In x properties -> is_property x = false ->
  findPropTypesInObjectNode (ObjectExpression properties) = Throw TypeError.
Proof.
  intros Hx Hnot. rewrite findPropTypesInObjectNode_unfold.
  apply (mapM_throws _ _ x); [|exact Hx|destruct x; try reflexivity; discriminate].
  intros y e' Hy H. destruct y; try congruence.
  exact (proj1 (throws_TypeError_only_inside y2 y2 (inside_here y2)) _ _ H).
Qed.

(** X7. The interpreter of an existing declaration throws nothing but a
    TypeError, and it does throw one when the object literal of the
    declaration has an entry that is not a property (a spread element, say):
    such a declaration is not read at all. *)
Theorem findPropTypesInPropTypeNode_throws :
  forall propNode : option node,
    (forall e, findPropTypesInPropTypeNode propNode = Throw e -> e = TypeError)
    /\ (forall lhs properties x,
          propNode = Some (AssignmentExpression lhs (ObjectExpression properties)) ->
          In x properties -> is_property x = false ->
          findPropTypesInPropTypeNode propNode = Throw TypeError)
    /\ (forall key properties x,
          propNode = Some (ClassProperty key (Some (ObjectExpression properties)) true) ->
          In x properties -> is_property x = false ->
          findPropTypesInPropTypeNode propNode = Throw TypeError).
Proof.
  intros propNode. split; [|split].
  - intros e. destruct propNode as [[]|]; try discriminate.
    + apply findPropTypesInObjectNode_throws.
    + destruct static; [|discriminate].
      destruct value; [|discriminate]. apply findPropTypesInObjectNode_throws.
  - intros lhs properties x -> Hx Hnot.
    exact (findPropTypesInObjectNode_not_property properties x Hx Hnot).
  - intros key properties x -> Hx Hnot.
    exact (findPropTypesInObjectNode_not_property properties x Hx Hnot).
Qed.

Example findPropTypesInPropTypeNode_spread :
  findPropTypesInPropTypeNode (Some SpreadExamples.declaration)
  = Throw TypeError.
Proof. reflexivity. Qed.

(** ** The depth of the usage inference, with the helper as modelled *)



Section UsageDepth.
Variable updatePropTypeByNode : node -> PropTypes -> PropTypes.
Variable prettyPrint : node -> string.






End UsageDepth.

(** ** The locator of a declaration *)

Section PropTypesNodeVisitor.
Variable name : string.
Variable alias : option string.

Lemma propTypesNodeVisitor_step (p : path) (s : option node * option node) :
  propTypesNodeVisitor name alias p s
  = if propTypes_visit_throws (propTypesLabel alias) p then Throw TypeError
    else Ok (if assignment_match name (propTypesLabel alias) p
             then Some (snd p) else fst s,
             if class_property_match name (propTypesLabel alias) p
             then Some (snd p) else snd s).
Proof.
  unfold propTypesNodeVisitor, propTypes_visit_throws, assignment_match,
    class_property_match, static_property, classNodeOf.
  destruct p as [ancestors n], s as [a c]. cbn [fst snd].
  destruct n; try reflexivity.
  - (* AssignmentExpression *)
    destruct n1; try reflexivity.
    destruct n1_1; try reflexivity. destruct n1_2; try reflexivity.
    destruct n2; try reflexivity.
    destruct (String.eqb name0 name && String.eqb name1 (propTypesLabel alias));
      reflexivity.
  - (* ClassProperty *)
    destruct n; try reflexivity.
    destruct value as [[]|]; try reflexivity.
    destruct static; [|rewrite !andb_false_r; reflexivity].
    rewrite !andb_true_r.
    destruct (String.eqb name0 (propTypesLabel alias)); [|reflexivity].
    cbn [andb].
    destruct ancestors as [|classBody [|[] ?]]; try reflexivity.
    destruct id0 as [i|]; [|reflexivity].
    cbn [bind hd_error].
    destruct (str_eq (node_name i) (Some name)); reflexivity.
Qed.

Lemma propTypesNodeVisitor_fold (l : list path) (s : option node * option node) :
  fold_left (fun acc p => s' <- acc ;; propTypesNodeVisitor name alias p s')
    l (Ok s)
  = if existsb (propTypes_visit_throws (propTypesLabel alias)) l
    then Throw TypeError
    else Ok (match find (assignment_match name (propTypesLabel alias)) (rev l) with
             | Some p => Some (snd p)
             | None => fst s
             end,
             match find (class_property_match name (propTypesLabel alias))
                     (rev l) with
             | Some p => Some (snd p)
             | None => snd s
             end).
Proof.
  revert s. induction l as [|p l IH]; intros s; cbn [fold_left existsb rev].
  - destruct s; reflexivity.
  - cbn [bind]. rewrite propTypesNodeVisitor_step.
    destruct (propTypes_visit_throws (propTypesLabel alias) p); cbn [orb].
    + apply fold_left_thrown.
    + rewrite IH. destruct (existsb _ l); [reflexivity|].
      rewrite !find_snoc. cbn [fst snd].
      destruct (find (assignment_match _ _) (rev l)),
               (find (class_property_match _ _) (rev l)),
               (assignment_match name (propTypesLabel alias) p),
               (class_property_match name (propTypesLabel alias) p);
        reflexivity.
Qed.
End PropTypesNodeVisitor.

Lemma findPropTypesNode_fold (ast : node) (name : string)
    (alias : option string) :
  findPropTypesNode ast name alias
  = if existsb (propTypes_visit_throws (propTypesLabel alias))
         (preorder [] ast)
    then Throw TypeError
    else Ok (match find (class_property_match name (propTypesLabel alias))
                     (rev (preorder [] ast)) with
             | Some p => Some (snd p)
             | None =>
                 option_map snd
                   (find (assignment_match name (propTypesLabel alias))
                      (rev (preorder [] ast)))
             end).
Proof.
  unfold findPropTypesNode, visit. rewrite propTypesNodeVisitor_fold.
  destruct (existsb _ _); [reflexivity|]. cbn [bind fst snd].
  destruct (find (class_property_match _ _) _); [reflexivity|].
  destruct (find (assignment_match _ _) _); reflexivity.
Qed.

(** X9. [findPropTypesNode] throws a TypeError when the tree holds a static
    class property of the label that nothing encloses or whose class
    declaration has no identifier. Otherwise a static class property of the
    component's class takes precedence over any assignment [name.label =
    { ... }], wherever the two stand in the file; of several nodes of one
    kind the one visited last is returned, and null without any. *)
Theorem findPropTypesNode_class_property_first :
  forall (ast : node) (name : string) (alias : option string),
    findPropTypesNode ast name alias
    = if existsb (propTypes_visit_throws (propTypesLabel alias))
           (preorder [] ast)
      then Throw TypeError
      else Ok (match find (class_property_match name (propTypesLabel alias))
                       (rev (preorder [] ast)) with
               | Some p => Some (snd p)
               | None =>
                   option_map snd
                     (find (assignment_match name (propTypesLabel alias))
                        (rev (preorder [] ast)))
               end).
Proof.
  intros ast name alias. unfold findPropTypesNode, visit.
  rewrite propTypesNodeVisitor_fold.
  destruct (existsb _ _); [reflexivity|]. cbn [bind fst snd].
  destruct (find (class_property_match _ _) _); [reflexivity|].
  destruct (find (assignment_match _ _) _); reflexivity.
Qed.

Example findPropTypesNode_both :
  findPropTypesNode DeclarationExamples.both "Foo" None
  = Ok (Some DeclarationExamples.static_field).
Proof. reflexivity. Qed.

Lemma preorder_inside (n : node) :
  forall ancestors0 ancestors d,
    In (ancestors, d) (preorder ancestors0 n) -> inside n d.
Proof.
  induction n as [n IH] using node_children_ind.
  intros ancestors0 ancestors d. rewrite preorder_children.
  intros [[= _ <-] | H]; [apply inside_here|].
  apply in_flat_map in H as (c & Hc & H).
  rewrite Forall_forall in IH.
  exact (inside_child n c d Hc (IH c Hc _ _ _ H)).
Qed.

Lemma findPropTypesNode_shape (ast : node) (name : string)
    (alias : option string) (n : node) :
  findPropTypesNode ast name alias = Ok (Some n) ->
  inside ast n
  /\ ((exists lhs properties,
         n = AssignmentExpression lhs (ObjectExpression properties))
      \/ (exists key properties,
            n = ClassProperty key (Some (ObjectExpression properties)) true
            /\ static_property (propTypesLabel alias) n = true)).
Proof.
  rewrite findPropTypesNode_fold.
  destruct (existsb _ _); [discriminate|].
  destruct (find (class_property_match _ _) _) as [[anc c]|] eqn:Hclass.
  - intros [= <-]. apply find_some in Hclass as [Hin Hmatch].
    apply in_rev in Hin. split; [exact (preorder_inside _ _ _ _ Hin)|].
    unfold class_property_match in Hmatch. cbn [fst snd] in *.
    apply andb_prop in Hmatch as [Hstatic _]. right.
    destruct c; try discriminate. destruct c; try discriminate.
    destruct value as [[]|]; try discriminate.
    destruct static; [|discriminate]. eauto.
  - destruct (find (assignment_match _ _) _) as [[anc c]|] eqn:Hassign;
      [|discriminate].
    intros [= <-]. apply find_some in Hassign as [Hin Hmatch].
    apply in_rev in Hin. split; [exact (preorder_inside _ _ _ _ Hin)|].
    unfold assignment_match in Hmatch. cbn [fst snd] in *. left.
    destruct c; try discriminate. destruct c1; try discriminate.
    destruct c1_1; try discriminate. destruct c1_2; try discriminate.
    destruct c2; try discriminate. eauto.
Qed.

(** X10. The declaration [findPropTypesNode] resolves to is a node of the
    tree with an object literal, the interpreter reads exactly that literal,
    and the writer takes its code style from it: default for an assignment,
    class for a class property. *)
Theorem findPropTypesNode_declaration :
  forall (ast : node) (name : string) (alias : option string) (n : node),
    findPropTypesNode ast name alias = Ok (Some n) ->
    inside ast n
    /\ exists properties,
         declared_object n = Some (ObjectExpression properties)
         /\ findPropTypesInPropTypeNode (Some n)
            = findPropTypesInObjectNode (ObjectExpression properties)
         /\ forall (o : Cli.options) (componentNode : node),
              Cli.codeStyle (Cli.resolveCodeStyle o componentNode (Some n))
              = Some (if static_property (propTypesLabel alias) n
                      then "class" else "default").
Proof.
  intros ast name alias n H.
  destruct (findPropTypesNode_shape ast name alias n H)
    as [Hin [(lhs & properties & ->) | (key & properties & -> & Hstatic)]].
  - split; [exact Hin|]. exists properties. repeat split.
  - split; [exact Hin|]. exists properties. rewrite Hstatic. repeat split.
Qed.

Lemma findPropTypesNode_declaration_witness :
  inside DeclarationExamples.both DeclarationExamples.static_field
  /\ exists properties,
       declared_object DeclarationExamples.static_field
       = Some (ObjectExpression properties)
       /\ findPropTypesInPropTypeNode (Some DeclarationExamples.static_field)
          = findPropTypesInObjectNode (ObjectExpression properties)
       /\ forall (o : Cli.options) (componentNode : node),
            Cli.codeStyle
              (Cli.resolveCodeStyle o componentNode
                 (Some DeclarationExamples.static_field))
            = Some (if static_property (propTypesLabel None)
                         DeclarationExamples.static_field
                    then "class" else "default").
Proof.
  apply (findPropTypesNode_declaration DeclarationExamples.both "Foo" None).
  reflexivity.
Defined.

(** ** The outcomes of the generator *)



(** ** The scope of a completion *)

(** The ancestors a path of the walk records are nodes of the tree that
    enclose the path's node. *)
Lemma preorder_ancestors (n : node) :
  forall ancestors0 ancestors d,
    In (ancestors, d) (preorder ancestors0 n) ->
    exists l, ancestors = l ++ ancestors0
              /\ forall b, In b l -> inside n b /\ encloses b d.
Proof.
  induction n as [n IH] using node_children_ind.
  intros ancestors0 ancestors d. rewrite preorder_children.
  intros [[= <- <-] | H].
  - exists []. split; [reflexivity | intros b []].
  - apply in_flat_map in H as (c & Hc & H).
    rewrite Forall_forall in IH.
    destruct (IH c Hc _ _ _ H) as (l & -> & Hl).
    exists (l ++ [n]). split; [now rewrite <- app_assoc|].
    intros b Hb. apply in_app_or in Hb as [Hb | [<- | []]].
    + destruct (Hl b Hb) as [Hin Henc].
      split; [exact (inside_child n c b Hc Hin) | exact Henc].
    + split; [apply inside_here|].
      exists c. split; [exact Hc | exact (preorder_inside _ _ _ _ H)].
Qed.

(** X14. For a node the walk of a tree reaches, [findBlockStatement] returns
    a block statement of the tree that encloses the node, and the nearest
    one: no node between the two is a block statement. It returns null only
    when no block statement encloses the node. *)
Theorem findBlockStatement_nearest :
  forall (ast : node) (p : path),
    In p (preorder [] ast) ->
    match findBlockStatement p with
    | Some b =>
        is_block b = true /\ inside ast b /\ encloses b (snd p)
        /\ exists near far,
             fst p = near ++ b :: far
             /\ forall c, In c near -> is_block c = false
    | None => forall b, In b (fst p) -> is_block b = false
    end.
Proof.
  intros ast [ancestors d] Hp. unfold findBlockStatement. cbn [fst snd].
  destruct (preorder_ancestors ast [] ancestors d Hp) as (l & -> & Hl).
  rewrite app_nil_r.
  change (fun a : node => match a with
                          | BlockStatement _ => true
                          | _ => false
                          end) with is_block.
  assert (Hfind : forall l' : list node,
            match find is_block l' with
            | Some b =>
                In b l' /\ is_block b = true
                /\ exists near far,
                     l' = near ++ b :: far
                     /\ forall c, In c near -> is_block c = false
            | None => forall b, In b l' -> is_block b = false
            end).
  { induction l' as [|x l' IHl]; cbn [find]; [intros b []|].
    destruct (is_block x) eqn:Hx.
    - split; [now left|]. split; [exact Hx|].
      exists [], l'. split; [reflexivity | intros c []].
    - destruct (find is_block l') as [b|].
      + destruct IHl as (Hin & Hb & near & far & -> & Hnear).
        split; [now right|]. split; [exact Hb|].
        exists (x :: near), far. split; [reflexivity|].
        intros c [<- | Hc]; [exact Hx | exact (Hnear c Hc)].
      + intros b [<- | Hb]; [exact Hx | exact (IHl b Hb)]. }
  specialize (Hfind l). destruct (find is_block l) as [b|]; [|exact Hfind].
  destruct Hfind as (Hin & Hb & Hsplit). destruct (Hl b Hin) as [Hinside Henc].
  auto.
Qed.

Lemma findBlockStatement_nearest_witness :
  match findBlockStatement ScopeExamples.call_path with
  | Some b =>
      is_block b = true /\ inside ScopeExamples.component b
      /\ encloses b (snd ScopeExamples.call_path)
      /\ exists near far,
           fst ScopeExamples.call_path = near ++ b :: far
           /\ forall c, In c near -> is_block c = false
  | None => forall b, In b (fst ScopeExamples.call_path) -> is_block b = false
  end.
Proof.
  apply (findBlockStatement_nearest ScopeExamples.component
           ScopeExamples.call_path).
  simpl. tauto.
Defined.

Example findBlockStatement_inner :
  findBlockStatement ScopeExamples.call_path = Some ScopeExamples.inner.
Proof. reflexivity. Qed.

(** ** The records of the default props and of a pattern *)

Lemma inside_preorder (n d : node) :
  inside n d ->
  forall ancestors0, exists ancestors, In (ancestors, d) (preorder ancestors0 n).
Proof.
  induction 1 as [n | n c d Hc _ IH]; intros ancestors0;
    rewrite preorder_children.
  - exists ancestors0. now left.
  - destruct (IH (n :: ancestors0)) as (ancestors & H).
    exists ancestors. right. apply in_flat_map. eauto.
Qed.

(** X15. The defaults inference does not stop at the entries of the object
    literal: every property with an identifier key anywhere in the tree of
    the default props, at any depth, gives a record of the list, with the
    rendered value as default unless the value leaves the type any. *)
Theorem findPropTypesInDefaultPropsNode_nested :
  forall (updatePropTypeByNode : node -> PropTypes -> PropTypes)
         (prettyPrint : node -> string) (ast : node) (kname : string)
         (value : node),
    inside ast (Property (Identifier kname) value) ->
    let props := updatePropTypeByNode value (new_PropTypes (Some kname)) in
    In (if negb (str_eq (type props) (Some "any"))
        then set_defaultValue (Some (prettyPrint value)) props
        else props)
       (findPropTypesInDefaultPropsNode updatePropTypeByNode prettyPrint
          (Some ast)).
Proof.
  intros update print ast kname value Hin props.
  destruct (inside_preorder _ _ Hin []) as (ancestors & Hp).
  unfold findPropTypesInDefaultPropsNode. apply in_flat_map.
  exists (ancestors, Property (Identifier kname) value).
  split; [exact Hp|]. cbn [snd]. fold props.
  destruct (negb (str_eq (type props) (Some "any"))); now left.
Qed.

Lemma findPropTypesInDefaultPropsNode_nested_witness :
  In (set_defaultValue (Some "1")
        (set_type (Some "number") (new_PropTypes (Some "color"))))
     (findPropTypesInDefaultPropsNode updatePropTypeByNode_model
        prettyPrint_model (Some ScopeExamples.nested_defaults)).
Proof.
  apply (findPropTypesInDefaultPropsNode_nested updatePropTypeByNode_model
           prettyPrint_model ScopeExamples.nested_defaults "color"
           (Literal (LNumber "1"))).
  apply (inside_child _
           (Property (Identifier "style")
              (ObjectExpression
                 [Property (Identifier "color") (Literal (LNumber "1"))])));
    [simpl; auto|].
  apply (inside_child _
           (ObjectExpression
              [Property (Identifier "color") (Literal (LNumber "1"))]));
    [simpl; auto|].
  apply (inside_child _
           (Property (Identifier "color") (Literal (LNumber "1"))));
    [simpl; auto|].
  apply inside_here.
Defined.

(** X16. The records of an object pattern are those of its bindings, in the
    order of the pattern: one record per entry that binds a local name,
    whose binding id is that name whatever the inference of the default
    value does to the record; a nested pattern and a rest element give no
    record. *)
Theorem findPropTypesInObjectPattern_bindings :
  forall (updatePropTypeByNode : node -> PropTypes -> PropTypes)
         (prettyPrint : node -> string) (properties : list node),
    map id (findPropTypesInObjectPattern updatePropTypeByNode prettyPrint
              (ObjectPattern properties))
    = map Some (flat_map binding_of properties).
Proof.
  intros update print properties. cbn [findPropTypesInObjectPattern].
  induction properties as [|entry properties IH]; [reflexivity|].
  cbn [flat_map]. rewrite !map_app, IH. f_equal.
  destruct entry; try reflexivity.
  destruct entry2; try reflexivity.
  destruct entry2_1; reflexivity.
Qed.

(** ** The files of a project *)

Lemma ends_with_suffix (suffix s : string) :
  Cli.ends_with suffix s = true <-> exists stem, s = (stem ++ suffix)%string.
Proof.
  unfold Cli.ends_with. split.
  - intros H. apply andb_prop in H as [Hlen Heq].
    apply Nat.leb_le in Hlen. apply String.eqb_eq in Heq.
    destruct (substring_split s (String.length s - String.length suffix))
      as (pre & post & Hs & Hpre & _ & Hpost); [lia|].
    replace (String.length s - (String.length s - String.length suffix))
      with (String.length suffix) in Hpost by lia.
    exists pre. congruence.
  - intros (stem & ->). rewrite string_length_append.
    apply andb_true_intro. split; [apply Nat.leb_le; lia|].
    apply String.eqb_eq.
    replace (String.length stem + String.length suffix - String.length suffix)
      with (String.length stem + 0) by lia.
    rewrite substring_skip. apply substring_all.
Qed.

(** X17. The project scan keeps a file exactly when its path ends in .js,
    .jsx, .ts or .tsx; what stands before the extension, if anything, does
    not matter. *)
Theorem is_javascript_extension :
  forall filePath : string,
    Cli.is_javascript filePath = true
    <-> exists stem,
          filePath = (stem ++ ".js")%string
          \/ filePath = (stem ++ ".jsx")%string
          \/ filePath = (stem ++ ".ts")%string
          \/ filePath = (stem ++ ".tsx")%string.
Proof.
  intros filePath. unfold Cli.is_javascript.
  rewrite !orb_true_iff, !ends_with_suffix. split.
  - intros [[[(stem & H) | (stem & H)] | (stem & H)] | (stem & H)];
      exists stem; auto.
  - intros (stem & [H | [H | [H | H]]]); eauto 6.
Qed.

(** ** The completion pass, whatever the helpers do *)

Section AnyHelperFacts.
Variable getPropTypeByMemberExpression :
  list string -> path -> option string * option PropTypes.
Variable customMergePropTypes :
  list (option PropTypes) -> list (option PropTypes) -> list PropTypes.

Lemma completion_step_kept (t : string) (n : string) (u u' : PropTypes) :
  t = "func" \/ t = "shape" -> has_id n u = true ->
  completion_step t u u' -> completion_kept u u'.
Proof.
  intros Ht Hid (H1 & H2 & H3 & H4 & H5 & H6).
  unfold completion_kept. repeat split; try assumption.
  right. split.
  - exists n. unfold has_id in Hid. now apply str_eq_true in Hid.
  - rewrite H6. destruct Ht as [-> | ->]; auto.
Qed.

Lemma completion_kept_refl (r : PropTypes) : completion_kept r r.
Proof. unfold completion_kept. repeat split. now left. Qed.

Lemma completion_kept_trans (r1 r2 r3 : PropTypes) :
  completion_kept r1 r2 -> completion_kept r2 r3 -> completion_kept r1 r3.
Proof.
  intros (A1 & A2 & A3 & A4 & A5 & A6) (B1 & B2 & B3 & B4 & B5 & B6).
  unfold completion_kept. repeat split; try congruence.
  destruct B6 as [-> | [[i Hi] Ht]]; [exact A6|].
  right. split; [exists i; congruence | exact Ht].
Qed.

Lemma Forall2_completion_kept_refl (st : list PropTypes) :
  Forall2 completion_kept st st.
Proof.
  induction st; constructor; [apply completion_kept_refl | assumption].
Qed.

Lemma Forall2_completion_kept_trans (l1 l2 l3 : list PropTypes) :
  Forall2 completion_kept l1 l2 -> Forall2 completion_kept l2 l3 ->
  Forall2 completion_kept l1 l3.
Proof.
  intros H. revert l3. induction H as [|a b l1 l2 Hab _ IH]; intros l3 H23.
  - inversion H23. constructor.
  - inversion H23 as [|? c ? l3' Hbc Htl]; subst. constructor.
    + exact (completion_kept_trans _ _ _ Hab Hbc).
    + exact (IH _ Htl).
Qed.

Lemma update_first_kept (t n : string) (f : PropTypes -> PropTypes)
    (st : list PropTypes) :
  t = "func" \/ t = "shape" ->
  (forall u, completion_step t u (f u)) ->
  Forall2 completion_kept st (update_first (has_id n) f st).
Proof.
  intros Ht Hf. induction st as [|a st IH]; cbn [update_first]; [constructor|].
  destruct (has_id n a) eqn:Hid; constructor.
  - exact (completion_step_kept t n a (f a) Ht Hid (Hf a)).
  - apply Forall2_completion_kept_refl.
  - apply completion_kept_refl.
  - exact IH.
Qed.

(** One step of the visitor: the list is left as it is, or the first record
    with the binding id the node gives evidence for is changed. *)
Lemma completeVisitor_evidence
    (complete : list PropTypes -> option (list PropTypes))
    (ids : list string) (st st1 : list PropTypes) (p : path) :
  AnyHelper.completeVisitor getPropTypeByMemberExpression customMergePropTypes
    complete ids (Some st) p = Some st1 ->
  match AnyHelper.evidence getPropTypeByMemberExpression ids p with
  | Some (n, t) =>
      (t = "func" \/ t = "shape")
      /\ exists f, st1 = update_first (has_id n) f st
                   /\ forall u, completion_step t u (f u)
  | None => st1 = st
  end.
Proof.
  unfold AnyHelper.completeVisitor, AnyHelper.evidence.
  destruct p as [ancestors n]. cbn [snd].
  destruct n; try (intros [= <-]; reflexivity).
  - (* MemberExpression *)
    unfold AnyHelper.completeMemberExpression.
    destruct (getPropTypeByMemberExpression ids _) as [[n|] [propType|]];
      try (intros [= <-]; reflexivity).
    destruct (truthy (Some n)); cbn [andb]; [|intros [= <-]; reflexivity].
    destruct (existsb (has_id n) st) eqn:Hex.
    + destruct (complete [propType]) as [completed|]; [|discriminate].
      intros [= <-]. split; [now right|].
      eexists. split; [reflexivity|]. intros u. repeat split.
    + intros [= <-]. split; [now right|].
      exists (set_type (Some "shape")). split.
      * symmetry. now apply update_first_absent.
      * intros u. repeat split.
  - (* CallExpression *)
    unfold completeCallExpression. cbn [snd].
    destruct n; try (intros [= <-]; reflexivity).
    destruct (includes ids name0); intros [= <-]; [|reflexivity].
    split; [now left|].
    eexists. split; [reflexivity|]. intros u. repeat split.
Qed.

Lemma completeVisitor_kept
    (complete : list PropTypes -> option (list PropTypes))
    (ids : list string) (paths : list path) :
  forall st completed,
    fold_left
      (AnyHelper.completeVisitor getPropTypeByMemberExpression
         customMergePropTypes complete ids) paths (Some st) = Some completed ->
    Forall2 completion_kept st completed.
Proof.
  induction paths as [|p paths IH]; intros st completed; cbn [fold_left].
  - intros [= <-]. apply Forall2_completion_kept_refl.
  - destruct (AnyHelper.completeVisitor getPropTypeByMemberExpression
                customMergePropTypes complete ids (Some st) p)
      as [st1|] eqn:Hstep.
    + intros H. apply (Forall2_completion_kept_trans st st1 completed);
        [|exact (IH _ _ H)].
      apply completeVisitor_evidence in Hstep.
      destruct (AnyHelper.evidence getPropTypeByMemberExpression ids p)
        as [[n t]|]; [|subst; apply Forall2_completion_kept_refl].
      destruct Hstep as (Ht & f & -> & Hf).
      exact (update_first_kept t n f st Ht Hf).
    + rewrite fold_left_stuck; [discriminate | reflexivity].
Qed.
End AnyHelperFacts.

(** X1. Whatever the two helpers that are not part of the sources do: a
    completion pass that returns gives back as many records as it was given
    and leaves the name, the required flag, the literal set, the default
    value and the binding id of each; a record it has changed has a binding
    id and is a func or a shape; and without a completion candidate it
    returns the list as it is, at once. *)
Theorem findAndCompletePropTypes_frame :
  forall (getPropTypeByMemberExpression :
            list string -> path -> option string * option PropTypes)
         (customMergePropTypes :
            list (option PropTypes) -> list (option PropTypes) ->
            list PropTypes)
         (fuel : nat) (ast : option node) (propTypes : list PropTypes),
    (forall completed,
       AnyHelper.findAndCompletePropTypes getPropTypeByMemberExpression
         customMergePropTypes fuel ast propTypes = Some completed ->
       Forall2 completion_kept propTypes completed)
    /\ (completion_ids propTypes = [] ->
        AnyHelper.findAndCompletePropTypes getPropTypeByMemberExpression
          customMergePropTypes (S fuel) ast propTypes = Some propTypes).
Proof.
  intros getProp merge fuel ast propTypes. split.
  - intros completed. destruct fuel as [|fuel]; [discriminate|].
    cbn [AnyHelper.findAndCompletePropTypes]. cbv zeta.
    destruct (completion_ids propTypes) as [|i ids];
      [intros [= <-]; apply Forall2_completion_kept_refl|].
    destruct ast as [a|];
      [|intros [= <-]; apply Forall2_completion_kept_refl].
    apply completeVisitor_kept.
  - intros Hids. cbn [AnyHelper.findAndCompletePropTypes]. cbv zeta.
    now rewrite Hids.
Qed.

(** [{ x(); x.a; }] for the record of [{ x }], with the helpers as they are
    modelled. *)
Lemma findAndCompletePropTypes_frame_witness :
  Forall2 completion_kept [SiteOrderExamples.x_record]
    [set_childTypes SiteOrderExamples.a_child
       (set_type (Some "shape") SiteOrderExamples.x_record)].
Proof.
  apply (proj1 (findAndCompletePropTypes_frame
                  getPropTypeByMemberExpression customMergePropTypes 2
                  (Some (BlockStatement
                           [SiteOrderExamples.call; SiteOrderExamples.access]))
                  [SiteOrderExamples.x_record])).
  reflexivity.
Defined.

(** ** The last evidence *)

Lemma last_cons_default {A : Type} (x d : A) (l : list A) :
  last (x :: l) d = last l x.
Proof.
  revert x d. induction l as [|y l IH]; intros x d; [reflexivity|].
  change (last (x :: y :: l) d) with (last (y :: l) d).
  now rewrite (IH y d), (IH y x).
Qed.

Lemma update_first_length (pred : PropTypes -> bool)
    (f : PropTypes -> PropTypes) (l : list PropTypes) :
  List.length (update_first pred f l) = List.length l.
Proof.
  induction l as [|x l IH]; cbn [update_first]; [reflexivity|].
  destruct (pred x); cbn [List.length]; [reflexivity | now rewrite IH].
Qed.

(** The first record of a binding id is the one a step for that id
    changes. *)
Lemma update_first_here (i : string) (f : PropTypes -> PropTypes)
    (pre : list PropTypes) (r : PropTypes) (st : list PropTypes) :
  (forall q, In q pre -> has_id i q = false) -> has_id i r = true ->
  update_first (has_id i) f (pre ++ r :: st) = pre ++ f r :: st.
Proof.
  intros Hpre Hr. induction pre as [|q pre IH]; cbn [app update_first].
  - now rewrite Hr.
  - rewrite (Hpre q (or_introl eq_refl)). f_equal.
    apply IH. intros q' Hq'. apply Hpre. now right.
Qed.

(** A step for another id leaves it where and as it is. *)
Lemma update_first_elsewhere (i n : string) (f : PropTypes -> PropTypes)
    (pre : list PropTypes) (r : PropTypes) (st : list PropTypes) :
  (forall u, id (f u) = id u) ->
  (forall q, In q pre -> has_id i q = false) -> has_id n r = false ->
  exists pre1 st1,
    update_first (has_id n) f (pre ++ r :: st) = pre1 ++ r :: st1
    /\ List.length pre1 = List.length pre
    /\ List.length st1 = List.length st
    /\ forall q, In q pre1 -> has_id i q = false.
Proof.
  intros Hf Hpre Hr. induction pre as [|q pre IH]; cbn [app update_first].
  - rewrite Hr. exists [], (update_first (has_id n) f st).
    repeat split; [apply update_first_length | intros q []].
  - destruct (has_id n q) eqn:Hq.
    + exists (f q :: pre), st. repeat split.
      intros q' [<- | Hq'].
      * unfold has_id. rewrite Hf. exact (Hpre _ (or_introl eq_refl)).
      * apply Hpre. now right.
    + destruct IH as (pre1 & st1 & -> & Hlen & Hlen' & Hids).
      { intros q' Hq'. apply Hpre. now right. }
      exists (q :: pre1), st1. cbn [List.length]. repeat split;
        [now rewrite Hlen | exact Hlen'|].
      intros q' [<- | Hq']; [exact (Hpre _ (or_introl eq_refl)) | auto].
Qed.

Section LastEvidence.
Variable getPropTypeByMemberExpression :
  list string -> path -> option string * option PropTypes.
Variable customMergePropTypes :
  list (option PropTypes) -> list (option PropTypes) -> list PropTypes.
Variable complete : list PropTypes -> option (list PropTypes).
Variable ids : list string.
Variable i : string.

Lemma completeVisitor_last (paths : list path) :
  forall pre r st completed,
    id r = Some i ->
    (forall q, In q pre -> has_id i q = false) ->
    fold_left
      (AnyHelper.completeVisitor getPropTypeByMemberExpression
         customMergePropTypes complete ids) paths (Some (pre ++ r :: st))
    = Some completed ->
    exists pre' r' st',
      completed = pre' ++ r' :: st'
      /\ List.length pre' = List.length pre
      /\ List.length st' = List.length st
      /\ type r'
         = last (map Some
                   (AnyHelper.evidence_for getPropTypeByMemberExpression ids i
                      paths))
                (type r).
Proof.
  induction paths as [|p paths IH]; intros pre r st completed Hid Hpre;
    cbn [fold_left].
  - intros [= <-]. exists pre, r, st. repeat split.
  - destruct (AnyHelper.completeVisitor getPropTypeByMemberExpression
                customMergePropTypes complete ids (Some (pre ++ r :: st)) p)
      as [st1|] eqn:Hstep;
      [|rewrite fold_left_stuck; [discriminate | reflexivity]].
    apply completeVisitor_evidence in Hstep.
    unfold AnyHelper.evidence_for. cbn [flat_map].
    fold (AnyHelper.evidence_for getPropTypeByMemberExpression ids i paths).
    destruct (AnyHelper.evidence getPropTypeByMemberExpression ids p)
      as [[n t]|].
    + destruct Hstep as (_ & f & -> & Hf).
      destruct (String.eqb_spec n i) as [-> | Hne].
      * rewrite (update_first_here i f pre r st Hpre)
          by (unfold has_id; rewrite Hid; apply str_eq_refl).
        intros H.
        destruct (IH pre (f r) st completed) as (pre' & r' & st' & H');
          [destruct (Hf r) as (_ & _ & _ & _ & -> & _); exact Hid
          |exact Hpre|exact H|].
        exists pre', r', st'.
        destruct H' as (-> & Hlen & Hlen' & Htype).
        repeat split; try assumption.
        rewrite Htype. cbn [app map]. rewrite last_cons_default.
        destruct (Hf r) as (_ & _ & _ & _ & _ & ->). reflexivity.
      * destruct (update_first_elsewhere i n f pre r st)
          as (pre1 & st1 & -> & Hlen & Hlen' & Hids).
        { intros u. now destruct (Hf u) as (_ & _ & _ & _ & -> & _). }
        { exact Hpre. }
        { unfold has_id. rewrite Hid. apply str_eq_false. congruence. }
        cbn [app]. intros H.
        destruct (IH pre1 r st1 completed Hid Hids H)
          as (pre' & r' & st' & -> & Hlen1 & Hlen1' & Htype).
        exists pre', r', st'. repeat split; congruence.
    + subst st1. cbn [app]. apply IH; assumption.
Qed.
End LastEvidence.

(** X13. Whatever the two helpers that are not part of the sources do, a
    completion pass that returns keeps the last evidence: the first record
    of a binding id has, in the end, the type the last node that addresses
    the binding gives it (func for a call of the binding, shape for a member
    expression the helper attributes to it), and its own type when no node
    addresses the binding. The lists before and after it keep their
    lengths. *)
Theorem findAndCompletePropTypes_last_evidence :
  forall (getPropTypeByMemberExpression :
            list string -> path -> option string * option PropTypes)
         (customMergePropTypes :
            list (option PropTypes) -> list (option PropTypes) ->
            list PropTypes)
         (fuel : nat) (a : node) (pre : list PropTypes) (r : PropTypes)
         (st : list PropTypes) (i : string) (completed : list PropTypes),
    id r = Some i ->
    (forall q, In q pre -> has_id i q = false) ->
    completion_ids (pre ++ r :: st) <> [] ->
    AnyHelper.findAndCompletePropTypes getPropTypeByMemberExpression
      customMergePropTypes fuel (Some a) (pre ++ r :: st) = Some completed ->
    exists pre' r' st',
      completed = pre' ++ r' :: st'
      /\ List.length pre' = List.length pre
      /\ List.length st' = List.length st
      /\ type r'
         = last (map Some
                   (AnyHelper.evidence_for getPropTypeByMemberExpression
                      (completion_ids (pre ++ r :: st)) i (preorder [] a)))
                (type r).
Proof.
  intros getProp merge fuel a pre r st i completed Hid Hpre Hids.
  destruct fuel as [|fuel]; [discriminate|].
  cbn [AnyHelper.findAndCompletePropTypes]. cbv zeta.
  destruct (completion_ids (pre ++ r :: st)) as [|j ids] eqn:E;
    [now destruct Hids|].
  now apply completeVisitor_last.
Qed.

Lemma findAndCompletePropTypes_last_evidence_witness :
  exists pre' r' st',
    [set_childTypes SiteOrderExamples.a_child
       (set_type (Some "shape") SiteOrderExamples.x_record)]
    = pre' ++ r' :: st'
    /\ List.length pre' = List.length (@nil PropTypes)
    /\ List.length st' = List.length (@nil PropTypes)
    /\ type r'
       = last (map Some
                 (AnyHelper.evidence_for getPropTypeByMemberExpression
                    (completion_ids ([] ++ [SiteOrderExamples.x_record])) "x"
                    (preorder []
                       (BlockStatement
                          [SiteOrderExamples.call; SiteOrderExamples.access]))))
              (type SiteOrderExamples.x_record).
Proof.
  apply (findAndCompletePropTypes_last_evidence getPropTypeByMemberExpression
           customMergePropTypes 2
           (BlockStatement [SiteOrderExamples.call; SiteOrderExamples.access])
           [] SiteOrderExamples.x_record [] "x").
  - reflexivity.
  - intros q [].
  - discriminate.
  - reflexivity.
Defined.

(** The functions above are those of the embedding when the helpers are the
    ones modelled from the spec. *)
Lemma findAndCompletePropTypes_any_helper (fuel : nat) (ast : option node)
    (propTypes : list PropTypes) :
  AnyHelper.findAndCompletePropTypes getPropTypeByMemberExpression
    customMergePropTypes fuel ast propTypes
  = findAndCompletePropTypes fuel ast propTypes.
Proof. reflexivity. Qed.

Lemma mergeResults_any_helper (results : list (list (option PropTypes))) :
  AnyHelper.mergeResults customMergePropTypes sortByKey results
  = mergeResults results.
Proof. reflexivity. Qed.

(** ** The positions of the sources *)


